(** * ananda-computer-server: a shallow embedding of [server.js]

    The Express application of [server.js] is embedded as pure functions
    over an explicit world: the document store (one list of documents per
    collection name), the set of files held by the media host, and the
    trace of calls made to both.  What the outside decides (the clock,
    the identifier the driver generates, whether a store or media call
    rejects, what the media host answers to an upload) is read from an
    environment record, so every handler is a function that can be run
    on concrete requests. *)

From Stdlib Require Import ZArith NArith Ascii String List Bool Lia.
From stdpp Require Import base option list strings gmap.

Local Open Scope string_scope.
Local Open Scope Z_scope.

(** ** JavaScript values *)

(** [new ObjectId(s)] on a string keeps the twelve bytes that the
    twenty-four hexadecimal digits of [s] spell. *)
Record ObjectId := MkObjectId { oid_bytes : list N }.

#[global] Instance ObjectId_eq_dec : EqDecision ObjectId.
Proof. solve_decision. Defined.

Definition hex_digit (c : ascii) : option N :=
  let n := N_of_ascii c in
  if ((48 <=? n) && (n <=? 57))%N then Some (n - 48)%N
  else if ((97 <=? n) && (n <=? 102))%N then Some (n - 87)%N
  else if ((65 <=? n) && (n <=? 70))%N then Some (n - 55)%N
  else None.

Fixpoint hex_bytes (s : string) : option (list N) :=
  match s with
  | EmptyString => Some []
  | String _ EmptyString => None
  | String a (String b rest) =>
      match hex_digit a, hex_digit b, hex_bytes rest with
      | Some h, Some l, Some bs => Some ((16 * h + l)%N :: bs)
      | _, _, _ => None
      end
  end.

(** The constructor throws (here: [None]) on any string that is not
    twenty-four hexadecimal digits, as the [bson] library of the current
    driver does. *)
Definition new_ObjectId (s : string) : option ObjectId :=
  if (String.length s =? 24)%nat then MkObjectId <$> hex_bytes s else None.

(** [ObjectId.isValid(s)]: the constructor accepts [s]. *)
Definition ObjectId_isValid (s : string) : bool :=
  match new_ObjectId s with Some _ => true | None => false end.

(** Values that flow through the handlers.  Objects keep their fields in
    insertion order, as JavaScript objects and BSON documents do.  A
    signed token is a string in JavaScript; it is kept here as what it
    was signed from. *)
#[warnings="-register-all"] Inductive value :=
| VUndef
| VNull
| VBool (b : bool)
| VNum (n : Z)
| VStr (s : string)
| VDate (t : Z)
| VOid (o : ObjectId)
| VJwt (claims : list (string * value)) (secret expiresIn : string)
| VArr (l : list value)
| VObj (fields : list (string * value)).

Definition document := list (string * value).

(** [o[k]]: [undefined] when the object has no such field. *)
Fixpoint obj_get (k : string) (o : document) : value :=
  match o with
  | [] => VUndef
  | (k', v) :: o' => if decide (k = k') then v else obj_get k o'
  end.

(** [o[k] = v]: an existing field keeps its place and takes the new
    value, a new field goes last. *)
Fixpoint obj_set (k : string) (v : value) (o : document) : document :=
  match o with
  | [] => [(k, v)]
  | (k', v') :: o' =>
      if decide (k = k') then (k, v) :: o' else (k', v') :: obj_set k v o'
  end.

(** Truthiness, as [if (x)] and [!x] see it. *)
Definition truthy (v : value) : bool :=
  match v with
  | VUndef | VNull => false
  | VBool b => b
  | VNum n => negb (n =? 0)
  | VStr s => negb (String.eqb s "")
  | _ => true
  end.

(** [a === b] between a value read from the store and a value read from
    the request: primitives compare by content, anything else is a
    distinct reference on each side. *)
Definition strict_eq (a b : value) : bool :=
  match a, b with
  | VUndef, VUndef => true
  | VNull, VNull => true
  | VBool x, VBool y => Bool.eqb x y
  | VNum x, VNum y => x =? y
  | VStr x, VStr y => String.eqb x y
  | _, _ => false
  end.

(** ** Results and errors *)

(** A computation either returns or throws an error carrying its
    [message]. *)
Inductive result (A : Type) :=
| Ok (a : A)
| Throw (message : string).
Arguments Ok {A} a.
Arguments Throw {A} message.

(** ** The world outside the process *)

(** The three query filters the handlers build: [{}], [{email: s}] and
    [{_id: o}]. *)
Inductive filter :=
| FAll
| FEmail (s : string)
| FId (o : ObjectId).

(** A field satisfies an equality condition when it is that value or an
    array holding it. *)
Definition field_is (p : value -> bool) (v : value) : bool :=
  p v || match v with VArr l => existsb p l | _ => false end.

Definition is_str (s : string) (v : value) : bool :=
  match v with VStr s' => String.eqb s s' | _ => false end.

Definition is_oid (o : ObjectId) (v : value) : bool :=
  match v with VOid o' => bool_decide (o = o') | _ => false end.

Definition matches (f : filter) (d : document) : bool :=
  match f with
  | FAll => true
  | FEmail s => field_is (is_str s) (obj_get "email" d)
  | FId o => field_is (is_oid o) (obj_get "_id" d)
  end.

(** Calls that leave the process: to the document store, and to the
    media host for a deletion ([CDestroyUndefined] is
    [destroy(undefined)], the deletion asked for a file that was never
    stored). *)
Inductive call :=
| CFindOne (coll : string) (f : filter)
| CFind (coll : string)
| CInsertOne (coll : string) (d : document)
| CDeleteOne (coll : string) (f : filter)
| CCount (coll : string)
| CDestroy (public_id : string)
| CDestroyUndefined.

Record world := World {
  db : gmap string (list document);
  media : gset string;
  calls : list call
}.

Definition collection (w : world) (c : string) : list document :=
  default [] (db w !! c).

(** What the upload middleware can hand to its callback as [err]. *)
Inductive upload_error :=
| MulterError (code message : string)
| OtherError (status : option Z) (message : string).

(** What the media host does with a file part it is sent. *)
Inductive upload_outcome :=
| Stored (path filename : string)
| Refused (err : upload_error).

(** What a request cannot decide by itself: the clock, the identifier
    the driver generates for an insert, which calls are rejected and with
    what message (a lost connection, a duplicate key, a refused
    deletion), and the outcome of the upload. *)
Record env := Env {
  now : Z;
  fresh_id : ObjectId;
  fault : call -> option string;
  uploaded : upload_outcome
}.

(** ** Handler computations *)

(** A handler step runs against the world and either returns or throws;
    the world it leaves behind is kept in both cases. *)
Definition M (A : Type) : Type := world -> result A * world.

Definition ret {A} (a : A) : M A := fun w => (Ok a, w).

Definition throw {A} (message : string) : M A := fun w => (Throw message, w).

Definition bind {A B} (m : M A) (k : A -> M B) : M B :=
  fun w =>
    match m w with
    | (Ok a, w') => k a w'
    | (Throw e, w') => (Throw e, w')
    end.

(** [try { m } catch (err) { h err.message }] *)
Definition try_catch {A} (m : M A) (h : string -> M A) : M A :=
  fun w =>
    match m w with
    | (Ok a, w') => (Ok a, w')
    | (Throw e, w') => h e w'
    end.

Notation "'let!' x := m 'in' k" := (bind m (fun x => k))
  (at level 10, x name, m at level 100, k at level 200).
Notation "'run!' m 'in' k" := (bind m (fun _ => k))
  (at level 10, m at level 100, k at level 200).

(** [v.k]: reading a property of [null] or [undefined] throws. *)
Definition get_prop (v : value) (k : string) : M value :=
  match v with
  | VNull => throw ("Cannot read properties of null (reading '" ++ k ++ "')")
  | VUndef => throw ("Cannot read properties of undefined (reading '" ++ k ++ "')")
  | VObj o => ret (obj_get k o)
  | _ => ret VUndef
  end.

(** ** Requests and replies *)

(** The requests the application routes.  A multipart request carries
    its text fields and, when it has an [image] part, that part's size in
    bytes; a login request submits its two credentials as strings. *)
Inductive request :=
| GET_root
| POST_services (body : document) (image : option N)
| GET_services
| GET_services_id (id : string)
| DELETE_services_id (id : string)
| POST_banners (body : document) (image : option N)
| GET_banners
| DELETE_banners_id (id : string)
| POST_faqs (body : document)
| GET_faqs
| DELETE_faqs_id (id : string)
| POST_galleries (body : document) (image : option N)
| GET_galleries
| DELETE_galleries_id (id : string)
| GET_dashboard_stats
| POST_login (email password : string).

(** A response body: what [res.json] was given, what [res.send] was
    given, or the page Express renders for an error with this message. *)
Inductive body :=
| Json (v : value)
| Text (s : string)
| ErrorPage (message : string).

(** How a request ends: with a response of some status and body, or
    with the handler's promise rejected before it wrote one.  Nothing in
    [server.js] answers the request in that case; what the client then
    sees is left to Express. *)
Inductive reply :=
| Reply (status : Z) (b : body)
| Rejected (message : string).

(** [req.file] as the storage engine fills it: the remote URL and the
    remote identifier. *)
Record file := File { path : string; filename : string }.

Section Handlers.

Variable e : env.

(** Every call that leaves the process is recorded, then it rejects if
    the environment says so. *)
Definition external (c : call) : M unit :=
  fun w =>
    let w' := World (db w) (media w) (calls w ++ [c]) in
    match fault e c with
    | Some msg => (Throw msg, w')
    | None => (Ok tt, w')
    end.

Definition set_collection (c : string) (l : list document) : M unit :=
  fun w => (Ok tt, World (<[c := l]> (db w)) (media w) (calls w)).

Definition get_collection (c : string) : M (list document) :=
  fun w => (Ok (collection w c), w).

(** *** The document store *)

(** [db.collection(c).findOne(f)]: the first match, or [null]. *)
Definition findOne (c : string) (f : filter) : M value :=
  run! external (CFindOne c f) in
  let! l := get_collection c in
  ret (match List.find (matches f) l with
       | Some d => VObj d
       | None => VNull
       end).

(** [db.collection(c).find({}).toArray()] *)
Definition find_toArray (c : string) : M value :=
  run! external (CFind c) in
  let! l := get_collection c in
  ret (VArr (VObj <$> l)).

(** [db.collection(c).countDocuments()] *)
Definition countDocuments (c : string) : M value :=
  run! external (CCount c) in
  let! l := get_collection c in
  ret (VNum (Z.of_nat (length l))).

(** The driver gives a document a generated [_id] unless it carries
    one. *)
Definition primary_key (item : document) : value :=
  match obj_get "_id" item with
  | VUndef | VNull => VOid (fresh_id e)
  | v => v
  end.

(** [db.collection(c).insertOne(item)]: the document is stored under its
    [_id], and the acknowledgement carries it. *)
Definition insertOne (c : string) (item : document) : M value :=
  run! external (CInsertOne c item) in
  let! l := get_collection c in
  let id := primary_key item in
  run! set_collection c (l ++ [obj_set "_id" id item]) in
  ret (VObj [("acknowledged", VBool true); ("insertedId", id)]).

(** Removing the first match, with the number of documents removed. *)
Fixpoint remove_first (f : filter) (l : list document) : list document * Z :=
  match l with
  | [] => ([], 0)
  | d :: l' =>
      if matches f d then (l', 1)
      else let '(r, n) := remove_first f l' in (d :: r, n)
  end.

(** [db.collection(c).deleteOne(f)] *)
Definition deleteOne (c : string) (f : filter) : M value :=
  run! external (CDeleteOne c f) in
  let! l := get_collection c in
  let '(r, n) := remove_first f l in
  run! set_collection c r in
  ret (VObj [("acknowledged", VBool true); ("deletedCount", VNum n)]).

(** *** The media host *)

(** [cloudinary.uploader.destroy(public_id)] *)
Definition destroy (public_id : string) : M unit :=
  run! external (CDestroy public_id) in
  fun w => (Ok tt, World (db w) (media w ∖ {[public_id]}) (calls w)).

(** *** Express plumbing *)

(** [res.status(s).json(v)] *)
Definition json (status : Z) (v : value) : M reply :=
  ret (Reply status (Json v)).

(** The object literal [{ message: m }]. *)
Definition message_obj (m : string) : value := VObj [("message", VStr m)].

(** [sendResponse(res, status, data)] *)
Definition sendResponse (status : Z) (data : value) : M value :=
  let! m := get_prop data "message" in
  ret (VObj [("status", VNum status); ("result", data); ("message", m)]).

(** [multer({ storage, limits: { fileSize: 5 * 1024 * 1024 } })] *)
Definition fileSize_limit : N := 5 * 1024 * 1024.

(** The storage engine's [_removeFile], as multer runs it on the file of
    an aborted upload: it asks the media host to delete the file under
    the name the upload gave it, if it gave one, and a refusal is only
    noted on the error. *)
Definition remove_uploaded (name : option string) : M unit :=
  try_catch
    match name with
    | Some public_id => destroy public_id
    | None => external CDestroyUndefined
    end
    (fun _ => ret tt).

(** An upload aborted on the size limit: the part, cut at the limit,
    has been streamed to the media host all the same, and whatever came
    of it is removed again. *)
Definition abort_upload : M unit :=
  match uploaded e with
  | Stored p f =>
      run! (fun w => (Ok tt, World (db w) ({[f]} ∪ media w) (calls w))) in
      remove_uploaded (Some f)
  | Refused _ => remove_uploaded None
  end.

(** [upload.single('image')] run on a request whose [image] part has the
    given size, if it has one.  Its callback receives either an error or
    nothing, and [req.file] is set when a file was stored.  For a part
    over the limit the upload is aborted and the callback receives the
    size error. *)
Definition upload_single (image : option N) : M (upload_error + option file) :=
  fun w =>
    match image with
    | None => (Ok (inr None), w)
    | Some size =>
        if (fileSize_limit <? size)%N
        then
          (Ok (inl (MulterError "LIMIT_FILE_SIZE" "File too large")),
           (abort_upload w).2)
        else match uploaded e with
             | Stored p f =>
                 (Ok (inr (Some (File p f))),
                  World (db w) ({[f]} ∪ media w) (calls w))
             | Refused err => (Ok (inl err), w)
             end
    end.

(** No error-handling middleware is registered on [app], so an error
    given to [next] reaches Express's own handler: an error page under
    the error's status when it carries one in the 4xx or 5xx range, under
    500 otherwise.  A [MulterError] carries none. *)
Definition default_error_handler (err : upload_error) : reply :=
  match err with
  | MulterError _ m => Reply 500 (ErrorPage m)
  | OtherError (Some s) m =>
      if (400 <=? s) && (s <? 600)
      then Reply s (ErrorPage m)
      else Reply 500 (ErrorPage m)
  | OtherError None m => Reply 500 (ErrorPage m)
  end.

(** [app.post(path, upload.single('image'), handler)] *)
Definition with_upload (image : option N) (handler : option file -> M reply)
  : M reply :=
  let! r := upload_single image in
  match r with
  | inl err => ret (default_error_handler err)
  | inr f => handler f
  end.

(** [safeUpload] *)
Definition safeUpload (image : option N) (next : option file -> M reply)
  : M reply :=
  let! r := upload_single image in
  match r with
  | inl (MulterError code m) =>
      if String.eqb code "LIMIT_FILE_SIZE"
      then json 400 (message_obj "File too large. Maximum 5MB allowed.")
      else json 400 (message_obj m)
  | inl (OtherError _ _) => json 500 (message_obj "Error uploading file")
  | inr None => json 400 (message_obj "Please upload an image")
  | inr (Some f) => next (Some f)
  end.

(** [{ ...body }]: the own fields of [body], in order. *)
Definition spread (body : document) : document :=
  fold_left (fun o kv => obj_set kv.1 kv.2 o) body [].

(** [{ ...req.body, image: req.file.path, createdAt: new Date() }] *)
Definition image_item (body : document) (f : file) : document :=
  obj_set "createdAt" (VDate (now e))
    (obj_set "image" (VStr (path f)) (spread body)).

(** The [catch] block of the three image-bearing create handlers. *)
Definition catch_create (file : option file) (err : string) : M reply :=
  run! match file with
       | Some f =>
           if truthy (VStr (filename f)) then destroy (filename f) else ret tt
       | None => ret tt
       end in
  let! r := sendResponse 400 (message_obj err) in
  json 400 r.

(** *** Services *)

(** The handler of [POST /api/services]; [POST /api/galleries] is the
    same text over its own collection. *)
Definition create_checked (c : string) (body : document) (file : option file)
  : M reply :=
  try_catch
    match file with
    | None => json 400 (message_obj "Please upload an image")
    | Some f =>
        let item := image_item body f in
        let! result := insertOne c item in
        let! r := sendResponse 201 result in
        json 201 r
    end
    (catch_create file).

Definition post_services := create_checked "services".

(** The four list handlers and the four delete handlers are the same
    text over their own collection. *)
Definition list_all (c : string) : M reply :=
  try_catch
    (let! result := find_toArray c in
     let! r := sendResponse 200 result in
     json 200 r)
    (fun err =>
       let! r := sendResponse 400 (message_obj err) in
       json 400 r).

(** [new ObjectId(req.params.id)] inside a handler. *)
Definition ObjectId_of_param (id : string) : M ObjectId :=
  match new_ObjectId id with
  | Some o => ret o
  | None =>
      throw "input must be a 24 character hex string, 12 byte Uint8Array, or an integer"
  end.

Definition delete_by_id (c : string) (id : string) : M reply :=
  try_catch
    (let! o := ObjectId_of_param id in
     let! result := deleteOne c (FId o) in
     let! r := sendResponse 200 result in
     json 200 r)
    (fun err =>
       let! r := sendResponse 400 (message_obj err) in
       json 400 r).

Definition get_services := list_all "services".

(** [GET /api/services/:id] *)
Definition get_services_id (id : string) : M reply :=
  try_catch
    (if negb (ObjectId_isValid id)
     then json 400 (message_obj "Invalid service ID")
     else
       let! o := ObjectId_of_param id in
       let! service := findOne "services" (FId o) in
       if negb (truthy service)
       then json 404 (message_obj "Service not found")
       else
         let! r := sendResponse 200 service in
         json 200 r)
    (fun err =>
       let! r := sendResponse 500 (message_obj err) in
       json 500 r).

Definition delete_services_id := delete_by_id "services".

(** *** Banners *)

(** The handler of [POST /api/banners] reads [req.file.path] without a
    check of its own. *)
Definition post_banners (body : document) (file : option file) : M reply :=
  try_catch
    (let! f := match file with
               | Some f => ret f
               | None =>
                   throw "Cannot read properties of undefined (reading 'path')"
               end in
     let item := image_item body f in
     let! result := insertOne "banners" item in
     let! r := sendResponse 201 result in
     json 201 r)
    (catch_create file).

Definition get_banners := list_all "banners".
Definition delete_banners_id := delete_by_id "banners".

(** *** FAQs *)

(** [POST /api/faqs] *)
Definition post_faqs (body : document) : M reply :=
  try_catch
    (let item := obj_set "createdAt" (VDate (now e)) (spread body) in
     let! result := insertOne "faqs" item in
     let! r := sendResponse 201 result in
     json 201 r)
    (fun err =>
       let! r := sendResponse 400 (message_obj err) in
       json 400 r).

Definition get_faqs := list_all "faqs".
Definition delete_faqs_id := delete_by_id "faqs".

(** *** Galleries *)

Definition post_galleries := create_checked "galleries".
Definition get_galleries := list_all "galleries".
Definition delete_galleries_id := delete_by_id "galleries".

(** *** Dashboard *)

(** [GET /api/dashboard-stats] *)
Definition get_dashboard_stats : M reply :=
  try_catch
    (let! totalServices := countDocuments "services" in
     let! totalBanners := countDocuments "banners" in
     let! totalFaqs := countDocuments "faqs" in
     let! totalGalleries := countDocuments "galleries" in
     let result := VObj [("totalServices", totalServices);
                         ("totalBanners", totalBanners);
                         ("totalFaqs", totalFaqs);
                         ("totalGalleries", totalGalleries)] in
     let! r := sendResponse 200 result in
     json 200 r)
    (fun err =>
       let! r := sendResponse 400 (message_obj err) in
       json 400 r).

(** *** Login *)

(** [jwt.sign(payload, secret, { expiresIn })] *)
Definition jwt_sign (payload : document) (secret expiresIn : string) : value :=
  VJwt payload secret expiresIn.

(** [POST /api/login], for a body that submits both credentials as
    strings. *)
Definition post_login (email password : string) : M reply :=
  try_catch
    (let! user := findOne "users" (FEmail email) in
     let! user_email := get_prop user "email" in
     let token := jwt_sign [("email", user_email)] "jwt-secret" "100d" in
     if negb (truthy user)
     then
       let! r := sendResponse 401 (message_obj "Invalid email address") in
       json 401 r
     else
       let! user_password := get_prop user "password" in
       if negb (strict_eq user_password (VStr password))
       then
         let! r := sendResponse 401 (message_obj "Invalid password") in
         json 401 r
       else
         let! r := sendResponse 200 (VObj [("user", user); ("token", token)]) in
         json 200 r)
    (fun err =>
       let! r := sendResponse 400 (message_obj err) in
       json 400 r).

(** *** Admin seed *)

Definition admin_email : string := "admin@admin.com".

(** [seedAdmin] *)
Definition seedAdmin : M unit :=
  try_catch
    (let! admin := findOne "users" (FEmail admin_email) in
     if truthy admin
     then ret tt
     else
       let! result := insertOne "users" [("email", VStr admin_email);
                                        ("password", VStr "admin")] in
       ret tt)
    (fun err => ret tt).

(** *** The application *)

Definition app (r : request) : M reply :=
  match r with
  | GET_root => ret (Reply 200 (Text "Server is running successfully!"))
  | POST_services body image => with_upload image (post_services body)
  | GET_services => get_services
  | GET_services_id id => get_services_id id
  | DELETE_services_id id => delete_services_id id
  | POST_banners body image => safeUpload image (post_banners body)
  | GET_banners => get_banners
  | DELETE_banners_id id => delete_banners_id id
  | POST_faqs body => post_faqs body
  | GET_faqs => get_faqs
  | DELETE_faqs_id id => delete_faqs_id id
  | POST_galleries body image => with_upload image (post_galleries body)
  | GET_galleries => get_galleries
  | DELETE_galleries_id id => delete_galleries_id id
  | GET_dashboard_stats => get_dashboard_stats
  | POST_login email password => post_login email password
  end.

(** One request served: how it ends and the world it leaves behind. *)
Definition serve (r : request) (w : world) : reply * world :=
  match app r w with
  | (Ok rep, w') => (rep, w')
  | (Throw m, w') => (Rejected m, w')
  end.

End Handlers.

(** ** Process lifecycle *)

Module Lifecycle.

(** What the process-level listeners can observe and change: the lines
    written to the console, and the exit code the process is due to
    leave with once the HTTP server has closed, if a close was asked
    with such a callback. *)
Record proc := Proc {
  console : list string;
  exit_on_close : option Z
}.

(** How a listener gives control back: it returns, it throws, or it ends
    the process with [process.exit(code)]. *)
Inductive completion :=
| Returned
| Threw (error : string)
| Exited (code : Z).

Definition listener := proc -> completion * proc.

Definition console_error (line : string) (p : proc) : proc :=
  Proc (console p ++ [line]) (exit_on_close p).

(** What the name [server] resolves to where a listener reads it. *)
Inductive binding :=
| Unbound
| Bound (truthy : bool).

(** [const server] is declared in the body of [startServer]; the top
    level of the module declares no [server]. *)
Definition server_at_top_level : binding := Unbound.

(** The listener registered at the top level of the module:
    [process.on('unhandledRejection', (err) => ...)]. *)
Definition top_level_unhandledRejection (server : binding) (err : string)
  : listener :=
  fun p =>
    let p := console_error ("Unhandled Promise Rejection: " ++ err) p in
    match server with
    | Unbound => (Threw "server is not defined", p)
    | Bound true => (Returned, Proc (console p) (Some 1))
    | Bound false => (Exited 1, p)
    end.

(** The two listeners each call of [startServer] registers. *)
Definition startServer_uncaughtException (error : string) : listener :=
  fun p => (Exited 1, console_error ("Uncaught Exception: " ++ error) p).

Definition startServer_unhandledRejection (reason : string) : listener :=
  fun p => (Returned, console_error ("Unhandled Rejection at: reason: " ++ reason) p).

(** [process.emit]: the listeners run in the order they were registered,
    until one throws or ends the process. *)
Fixpoint emit (ls : list listener) (p : proc) : completion * proc :=
  match ls with
  | [] => (Returned, p)
  | l :: ls' =>
      match l p with
      | (Returned, p') => emit ls' p'
      | stop => stop
      end
  end.

Inductive event :=
| unhandledRejection (reason : string)
| uncaughtException (error : string).

(** An exception nobody caught: the registered listeners decide; with
    none registered the runtime itself ends the process with code 1. *)
Definition raise_uncaught (starts : nat) (error : string) (p : proc)
  : completion * proc :=
  match starts with
  | O => (Exited 1, p)
  | _ => emit (repeat (startServer_uncaughtException error) starts) p
  end.

(** The process receives an event after [startServer] has run [starts]
    times (once, and once more for every port found in use).  An
    exception thrown by a listener is itself an uncaught exception. *)
Definition dispatch (server : binding) (starts : nat) (ev : event) (p : proc)
  : completion * proc :=
  match ev with
  | unhandledRejection reason =>
      match emit (top_level_unhandledRejection server reason
                  :: repeat (startServer_unhandledRejection reason) starts) p with
      | (Threw error, p') => raise_uncaught starts error p'
      | done => done
      end
  | uncaughtException error => raise_uncaught starts error p
  end.

(** The process is gone, or will be as soon as the server has closed. *)
Definition exits_with (code : Z) (r : completion * proc) : Prop :=
  r.1 = Exited code ∨ (r.1 = Returned ∧ exit_on_close r.2 = Some code).

End Lifecycle.

(** ** Startup *)

Module Startup.

(** What [app.listen(port, '0.0.0.0')] runs into once the port is a
    legal one: the [listening] event, or an [error] event with a code. *)
Inductive listen_result :=
| listening
| error (code : string).

(** How [startServer] ends: with a server listening on a port, or with
    the process gone. *)
Inductive started :=
| Listening (port : Z)
| Exited (code : Z).

(** [parseInt(process.env.PORT, 10) || 3000], for what [parseInt]
    returned ([None] is [NaN]). *)
Definition PORT (parsed : option Z) : Z :=
  match parsed with
  | Some n => if n =? 0 then 3000 else n
  | None => 3000
  end.

(** [startServer(port)], with [ahead] counting the ports from [port] up
    to 65535.  On a legal port, [EADDRINUSE] starts over on the next
    port and any other error ends the process with code 1.  Past 65535
    no port is ahead: [app.listen] throws a [RangeError], which nothing
    catches, and the process ends with code 1. *)
Fixpoint startServer_within (listen : Z → listen_result) (ahead : nat)
    (port : Z) : started :=
  match ahead with
  | O => Exited 1
  | S ahead' =>
      match listen port with
      | listening => Listening port
      | error code =>
          if String.eqb code "EADDRINUSE"
          then startServer_within listen ahead' (port + 1)
          else Exited 1
      end
  end.

(** [startServer(port)]: [app.listen] throws the same [RangeError] on a
    negative port. *)
Definition startServer (listen : Z → listen_result) (port : Z) : started :=
  if decide (0 ≤ port < 65536)
  then startServer_within listen (Z.to_nat (65536 - port)) port
  else Exited 1.

(** [connectToMongo()], for a [client.connect()] that resolves ([None])
    or rejects with a message: a rejected connection ends the process
    with code 1, an established one runs the seed. *)
Definition connectToMongo (e : env) (connect : option string) (w : world)
  : Lifecycle.completion * world :=
  match connect with
  | Some err => (Lifecycle.Exited 1, w)
  | None => (Lifecycle.Returned, (seedAdmin e w).2)
  end.

End Startup.

(** * Vocabulary of the properties *)

(** Where a create request puts its document, and whether the resource
    bears an image. *)
Definition create_target (r : request) : option (string * bool) :=
  match r with
  | POST_services _ _ => Some ("services", true)
  | POST_banners _ _ => Some ("banners", true)
  | POST_galleries _ _ => Some ("galleries", true)
  | POST_faqs _ => Some ("faqs", false)
  | _ => None
  end.

(** The text fields and the image part of a multipart create request. *)
Definition multipart (r : request) : option (document * option N) :=
  match r with
  | POST_services body image
  | POST_banners body image
  | POST_galleries body image => Some (body, image)
  | _ => None
  end.

(** The collection and the identifier of a delete request. *)
Definition delete_target (r : request) : option (string * string) :=
  match r with
  | DELETE_services_id id => Some ("services", id)
  | DELETE_banners_id id => Some ("banners", id)
  | DELETE_faqs_id id => Some ("faqs", id)
  | DELETE_galleries_id id => Some ("galleries", id)
  | _ => None
  end.

(** The identifier of a request that names one: the four deletes and the
    lookup of one service. *)
Definition by_id (r : request) : option string :=
  match r with
  | GET_services_id id => Some id
  | _ => snd <$> delete_target r
  end.

(** The object [sendResponse] builds. *)
Definition envelope_of (status : Z) (data : value) (m : value) : value :=
  VObj [("status", VNum status); ("result", data); ("message", m)].

(** [data.message] for a payload that is neither [null] nor
    [undefined]. *)
Definition message_of (data : value) : value :=
  match data with
  | VObj o => obj_get "message" o
  | _ => VUndef
  end.

(** A body built by [sendResponse]. *)
Definition enveloped (status : Z) (v : value) : Prop :=
  ∃ data, v = envelope_of status data (message_of data).

(** The JSON bodies written without [sendResponse], per route. *)
Definition bare_reply (r : request) (status : Z) (v : value) : Prop :=
  match r with
  | POST_services _ _ | POST_galleries _ _ =>
      status = 400 ∧ v = message_obj "Please upload an image"
  | POST_banners _ _ =>
      (status = 400 ∧ ∃ m, v = message_obj m) ∨
      (status = 500 ∧ v = message_obj "Error uploading file")
  | GET_services_id _ =>
      (status = 400 ∧ v = message_obj "Invalid service ID") ∨
      (status = 404 ∧ v = message_obj "Service not found")
  | _ => False
  end.

(** The validation exit a request ends at, if it ends at one, as the
    status and the message written there: the missing image of an
    image-bearing create, an upload error met by [safeUpload], the
    malformed identifier and the missing document of the lookup of one
    service. *)
Definition validation_exit (e : env) (r : request) (w : world)
  : option (Z * string) :=
  match r with
  | POST_services _ None | POST_banners _ None | POST_galleries _ None =>
      Some (400, "Please upload an image")
  | POST_banners _ (Some size) =>
      if (fileSize_limit <? size)%N
      then Some (400, "File too large. Maximum 5MB allowed.")
      else match uploaded e with
           | Stored _ _ => None
           | Refused (MulterError code m) =>
               if String.eqb code "LIMIT_FILE_SIZE"
               then Some (400, "File too large. Maximum 5MB allowed.")
               else Some (400, m)
           | Refused (OtherError _ _) => Some (500, "Error uploading file")
           end
  | GET_services_id id =>
      match new_ObjectId id with
      | None => Some (400, "Invalid service ID")
      | Some o =>
          match fault e (CFindOne "services" (FId o)),
                List.find (matches (FId o)) (collection w "services") with
          | None, None => Some (404, "Service not found")
          | _, _ => None
          end
      end
  | _ => None
  end.

Definition enveloped_or_bare (r : request) (status : Z) (v : value) : Prop :=
  enveloped status v ∨ bare_reply r status v.

(** Every JSON body that a handler computation can reply with satisfies
    [P]. *)
Definition replies (P : Z → value → Prop) (m : M reply) : Prop :=
  ∀ w s v, (m w).1 = Ok (Reply s (Json v)) → P s v.

Definition delete_result (n : Z) : value :=
  VObj [("acknowledged", VBool true); ("deletedCount", VNum n)].

Definition malformed_id_error : string :=
  "input must be a 24 character hex string, 12 byte Uint8Array, or an integer".

Definition null_email_error : string :=
  "Cannot read properties of null (reading 'email')".

(** The document the seed inserts, and the user documents that the
    seed's query matches. *)
Definition seed_doc : document :=
  [("email", VStr admin_email); ("password", VStr "admin")].

Definition admins (w : world) : list document :=
  List.filter (matches (FEmail admin_email)) (collection w "users").

(** ** Sample inputs *)

Definition no_fault : call → option string := λ _, None.

Definition failing_find (m : string) : call → option string :=
  λ c, match c with CFindOne _ _ => Some m | _ => None end.

Definition failing_insert (m : string) : call → option string :=
  λ c, match c with CInsertOne _ _ => Some m | _ => None end.

Definition failing_delete (m : string) : call → option string :=
  λ c, match c with CDeleteOne _ _ => Some m | _ => None end.

Definition failing_insert_and_destroy (m m' : string) : call → option string :=
  λ c, match c with
       | CInsertOne _ _ => Some m
       | CDestroy _ => Some m'
       | _ => None
       end.

Definition sample_id : ObjectId := MkObjectId (repeat 7%N 12).

Definition sample_hex : string := "070707070707070707070707".

Definition sample_env : env :=
  Env 1700000000000 sample_id no_fault
    (Stored "https://res.cloudinary.com/demo/anando-computer/a1.png"
            "anando-computer/a1").

Definition banner_env (faults : call → option string) : env :=
  Env 5 sample_id faults (Stored "https://res/b7.png" "anando-computer/b7").

Definition empty_world : world := World ∅ ∅ [].

Definition six_MiB : N := 6 * 1024 * 1024.

Definition admin_doc : document :=
  [("_id", VOid sample_id); ("email", VStr "admin@admin.com");
   ("password", VStr "admin")].

Definition seeded_world : world := World {[ "users" := [admin_doc] ]} ∅ [].

Definition twice_seeded_world : world :=
  World {[ "users" := [admin_doc; admin_doc] ]} ∅ [].

Definition service_doc : document :=
  [("title", VStr "Repair"); ("image", VStr "https://res/a1.png");
   ("createdAt", VDate 1600000000000); ("_id", VOid sample_id)].

Definition service_world : world :=
  World {[ "services" := [service_doc] ]} {[ "anando-computer/a1" ]} [].

Ltac run_handler :=
  unfold serve, app, with_upload, safeUpload, post_services, post_galleries,
    create_checked, post_banners, post_faqs, catch_create, list_all,
    delete_by_id, get_services_id, ObjectId_of_param, insertOne, deleteOne,
    findOne, find_toArray, countDocuments, sendResponse, json, external,
    get_collection, set_collection, get_prop, destroy, try_catch, bind, ret,
    throw, upload_single in *.

(** ** Vocabulary of the further properties *)

(** The collection a list request reads. *)
Definition list_target (r : request) : option string :=
  match r with
  | GET_services => Some "services"
  | GET_banners => Some "banners"
  | GET_faqs => Some "faqs"
  | GET_galleries => Some "galleries"
  | _ => None
  end.

(** What the handler of a create request is given to work on, when the
    request reaches it with all it needs: the collection, the submitted
    fields and, for an image-bearing resource, the file that the upload
    stored. *)
Definition creates (e : env) (r : request)
  : option (string * document * option file) :=
  match r with
  | POST_faqs body => Some ("faqs", body, None)
  | _ =>
      match create_target r, multipart r, uploaded e with
      | Some (c, _), Some (body, Some size), Stored p f =>
          if (fileSize_limit <? size)%N then None
          else Some (c, body, Some (File p f))
      | _, _, _ => None
      end
  end.

(** The media host once the upload of a create request has stored its
    file. *)
Definition media_with (f : option file) (m : gset string) : gset string :=
  match f with
  | Some f => {[filename f]} ∪ m
  | None => m
  end.

(** The item a create handler builds from the submitted fields, given
    the file the upload stored, if the resource bears one. *)
Definition built_item (e : env) (body : document) (f : option file)
  : document :=
  match f with
  | Some f => image_item e body f
  | None => obj_set "createdAt" (VDate (now e)) (spread body)
  end.

(** The document an insert stores for an item. *)
Definition stored_doc (e : env) (item : document) : document :=
  obj_set "_id" (primary_key e item) item.

Definition insert_ack (id : value) : value :=
  VObj [("acknowledged", VBool true); ("insertedId", id)].

(** The routes whose handlers only read. *)
Definition reads_only (r : request) : bool :=
  match r with
  | GET_root | GET_services | GET_services_id _ | GET_banners | GET_faqs
  | GET_galleries | GET_dashboard_stats | POST_login _ _ => true
  | _ => false
  end.

(** A reply in the 2xx range. *)
Definition succeeded (rep : reply) : bool :=
  match rep with
  | Reply s _ => (200 <=? s) && (s <? 300)
  | Rejected _ => false
  end.

Definition stats_result (w : world) : value :=
  VObj [("totalServices", VNum (Z.of_nat (length (collection w "services"))));
        ("totalBanners", VNum (Z.of_nat (length (collection w "banners"))));
        ("totalFaqs", VNum (Z.of_nat (length (collection w "faqs"))));
        ("totalGalleries", VNum (Z.of_nat (length (collection w "galleries"))))].

(** The token [POST /api/login] signs for a user document. *)
Definition login_token (u : document) : value :=
  VJwt [("email", obj_get "email" u)] "jwt-secret" "100d".

Definition faq_body : document :=
  [("question", VStr "Q"); ("answer", VStr "A")].

Definition busy_below (free : Z) : Z → Startup.listen_result :=
  λ p, if p <? free then Startup.error "EADDRINUSE" else Startup.listening.

(** [wp m Q w]: run from [w], the computation [m] ends in an outcome and
    a world that satisfy [Q]. *)
Definition wp {A} (m : M A) (Q : result A → world → Prop) (w : world) : Prop :=
  Q (m w).1 (m w).2.

Definition two_services_world : world :=
  World {[ "services" :=
             [service_doc;
              [("title", VStr "Sales");
               ("_id", VOid (MkObjectId (repeat 9%N 12)))]] ]}
    {[ "anando-computer/a1" ]} [].

(** * Properties *)

(** ** Objects and collections *)

Lemma obj_get_set_eq (k : string) (v : value) (o : document) :
  obj_get k (obj_set k v o) = v.
Proof.
  induction o as [|[k' v'] o IH]; simpl.
  - by rewrite decide_True.
  - destruct (decide (k = k')) as [->|Hne]; simpl.
    + by rewrite decide_True.
    + by rewrite decide_False.
Qed.

Lemma obj_get_set_ne (k k' : string) (v : value) (o : document) :
  k ≠ k' → obj_get k' (obj_set k v o) = obj_get k' o.
Proof.
  intros Hne. induction o as [|[k0 v0] o IH]; simpl.
  - rewrite decide_False; [done | congruence].
  - destruct (decide (k = k0)) as [->|Hk]; simpl.
    + rewrite !decide_False; [done | congruence | congruence].
    + destruct (decide (k' = k0)); [done | apply IH].
Qed.

(** The document an insert stores keeps every field of the item other
    than [_id]. *)
Lemma stored_field (k : string) (id : value) (item : document) :
  k ≠ "_id" → obj_get k (obj_set "_id" id item) = obj_get k item.
Proof. intros Hk. apply obj_get_set_ne. congruence. Qed.

Lemma collection_insert (c : string) (l : list document)
    (d : gmap string (list document)) (m : gset string) (cs : list call) :
  collection (World (<[c := l]> d) m cs) c = l.
Proof. unfold collection; simpl. by rewrite lookup_insert_eq. Qed.

Lemma find_matches_Some (f : filter) (l : list document) (d : document) :
  List.find (matches f) l = Some d → d ∈ l ∧ matches f d = true.
Proof.
  intros H. apply find_some in H as [Hin Hm].
  split; [by apply list_elem_of_In | done].
Qed.

Lemma find_matches_None (f : filter) (l : list document) :
  List.find (matches f) l = None ↔ ∀ d, d ∈ l → matches f d = false.
Proof.
  split.
  - intros H d Hd. apply (find_none _ _ H). by apply list_elem_of_In.
  - intros H. induction l as [|d l IH]; [done|]; simpl.
    rewrite (H d) by apply list_elem_of_here.
    apply IH. intros d' Hd'. apply H. by apply list_elem_of_further.
Qed.

Lemma find_None_filter (f : filter) (l : list document) :
  List.find (matches f) l = None → List.filter (matches f) l = [].
Proof.
  induction l as [|d l IH]; simpl; [done|].
  destruct (matches f d); [done | exact IH].
Qed.

Lemma find_app_None (f : filter) (l l' : list document) :
  List.find (matches f) l = None →
  List.find (matches f) (l ++ l') = List.find (matches f) l'.
Proof.
  induction l as [|d l IH]; simpl; [done|].
  destruct (matches f d); [done | exact IH].
Qed.

Lemma remove_first_found (f : filter) (l : list document) (d : document) :
  List.find (matches f) l = Some d →
  ∃ r, remove_first f l = (r, 1) ∧ length l = S (length r).
Proof.
  revert d. induction l as [|x l IH]; intros d; simpl; [done|].
  destruct (matches f x) eqn:Hx.
  - intros _. by eexists.
  - intros Hd. destruct (IH d Hd) as (r & -> & Hlen).
    eexists; split; [done|]. simpl. by rewrite Hlen.
Qed.

Lemma remove_first_none (f : filter) (l : list document) :
  List.find (matches f) l = None → remove_first f l = (l, 0).
Proof.
  induction l as [|x l IH]; simpl; [done|].
  destruct (matches f x); [done|]. intros H. by rewrite (IH H).
Qed.

(** ** Uploads *)

(** Express's own error handler never answers below 400, and never in
    JSON. *)
Lemma default_error_handler_status (err : upload_error) (s : Z) (b : body) :
  default_error_handler err = Reply s b →
  400 ≤ s < 600 ∧ ∃ m, b = ErrorPage m.
Proof.
  destruct err as [code m|[st|] m]; unfold default_error_handler.
  2: destruct (400 <=? st) eqn:H1, (st <? 600) eqn:H2; simpl.
  all: intros [= <- <-]; split; [lia|by eexists].
Qed.

(** The removal of an aborted upload leaves the store alone. *)
Lemma abort_upload_db (e : env) (w : world) : db (abort_upload e w).2 = db w.
Proof.
  unfold abort_upload, remove_uploaded, destroy, external, try_catch, bind, ret.
  destruct (uploaded e) as [p f|err]; simpl.
  - by destruct (fault e (CDestroy f)).
  - by destruct (fault e CDestroyUndefined).
Qed.

(** When the media host stored the truncated file, its deletion is the
    one call made, and the file is gone unless the deletion is
    refused. *)
Lemma abort_upload_stored (e : env) (p f : string) (w : world) :
  uploaded e = Stored p f →
  calls (abort_upload e w).2 = (calls w ++ [CDestroy f])%list ∧
  media (abort_upload e w).2
  = match fault e (CDestroy f) with
    | None => ({[f]} ∪ media w) ∖ {[f]}
    | Some _ => {[f]} ∪ media w
    end.
Proof.
  intros Hu.
  unfold abort_upload, remove_uploaded, destroy, external, try_catch, bind, ret.
  rewrite Hu; simpl. by destruct (fault e (CDestroy f)).
Qed.

(** The multer middleware mounted bare hands its error to Express. *)
Lemma with_upload_oversized (e : env) (size : N)
    (handler : option file → M reply) (w : world) :
  (fileSize_limit < size)%N →
  with_upload e (Some size) handler w
  = (Ok (Reply 500 (ErrorPage "File too large")), (abort_upload e w).2).
Proof.
  intros Hs. apply N.ltb_lt in Hs.
  unfold with_upload, bind, upload_single. by rewrite Hs.
Qed.

(** [POST /api/banners] goes through [safeUpload]: an oversized file is
    answered 400 with the size message. *)
Lemma post_banners_oversized (e : env) (body : document) (size : N) (w : world) :
  (fileSize_limit < size)%N →
  serve e (POST_banners body (Some size)) w
  = (Reply 400 (Json (message_obj "File too large. Maximum 5MB allowed.")),
     (abort_upload e w).2).
Proof.
  intros Hs. apply N.ltb_lt in Hs.
  unfold serve, app, safeUpload, bind, upload_single. by rewrite Hs.
Qed.

(** C1: on [POST /api/services] and [POST /api/galleries] the multer
    middleware is mounted bare, so for a file over the 5 MiB limit its
    error goes to Express's own handler: the reply is a 500 error page,
    not the 400 with the message "File too large. Maximum 5MB allowed.";
    the handler does not run and no collection of the store changes. *)
Theorem oversized_upload_unguarded (e : env) (body : document) (size : N)
    (w : world) :
  (fileSize_limit < size)%N →
  ((serve e (POST_services body (Some size)) w).1
   = Reply 500 (ErrorPage "File too large") ∧
   db (serve e (POST_services body (Some size)) w).2 = db w) ∧
  ((serve e (POST_galleries body (Some size)) w).1
   = Reply 500 (ErrorPage "File too large") ∧
   db (serve e (POST_galleries body (Some size)) w).2 = db w).
Proof.
  intros Hs. unfold serve, app. rewrite !with_upload_oversized by done.
  simpl. by rewrite abort_upload_db.
Qed.

Lemma oversized_upload_unguarded_witness :
  ((serve sample_env (POST_services [("title", VStr "Repair")] (Some six_MiB))
      service_world).1
   = Reply 500 (ErrorPage "File too large") ∧
   db (serve sample_env
         (POST_services [("title", VStr "Repair")] (Some six_MiB))
         service_world).2 = db service_world) ∧
  ((serve sample_env (POST_galleries [("title", VStr "Repair")] (Some six_MiB))
      service_world).1
   = Reply 500 (ErrorPage "File too large") ∧
   db (serve sample_env
         (POST_galleries [("title", VStr "Repair")] (Some six_MiB))
         service_world).2 = db service_world).
Proof.
  apply (oversized_upload_unguarded sample_env [("title", VStr "Repair")]
           six_MiB service_world).
  reflexivity.
Defined.

(** X10: on each of the three image-bearing routes an oversized file
    changes no collection of the store; when the media host stored the
    truncated file, the one call made is the deletion of that file, and
    the file is gone again unless that deletion is refused, in which
    case it stays. *)
Lemma oversized_upload_inserts_nothing (e : env) (r : request)
    (body : document) (size : N) (w : world) :
  multipart r = Some (body, Some size) →
  (fileSize_limit < size)%N →
  db (serve e r w).2 = db w ∧
  ∀ p f, uploaded e = Stored p f →
    calls (serve e r w).2 = (calls w ++ [CDestroy f])%list ∧
    (fault e (CDestroy f) = None →
     media (serve e r w).2 = ({[f]} ∪ media w) ∖ {[f]}) ∧
    (∀ m, fault e (CDestroy f) = Some m →
          media (serve e r w).2 = {[f]} ∪ media w).
Proof.
  intros Hm Hs.
  assert ((serve e r w).2 = (abort_upload e w).2) as ->.
  { destruct r; simpl in Hm; simplify_eq.
    - unfold serve, app. by rewrite with_upload_oversized.
    - by rewrite post_banners_oversized.
    - unfold serve, app. by rewrite with_upload_oversized. }
  split; [apply abort_upload_db|]. intros p f Hu.
  destruct (abort_upload_stored e p f w Hu) as [Hc Hmed].
  split; [done|]. rewrite Hmed. split; [by intros ->|by intros m ->].
Qed.

(** ** Creates *)

(** C10: on every create request answered 201, the document appended to
    the resource's collection has the server's clock as [createdAt] and,
    for services, banners and galleries, the remote URL of the uploaded
    file as [image], whatever the request body submitted under these two
    names. *)
Theorem create_server_fields_win (e : env) (r : request) (w w' : world)
    (b : body) (c : string) (img : bool) :
  create_target r = Some (c, img) →
  serve e r w = (Reply 201 b, w') →
  ∃ d : document,
    collection w' c = (collection w c ++ [d])%list ∧
    obj_get "createdAt" d = VDate (now e) ∧
    (img = true →
     ∃ p f, uploaded e = Stored p f ∧ obj_get "image" d = VStr p).
Proof.
  intros Ht Hs.
  destruct r; simpl in Ht; simplify_eq; run_handler.
  all: repeat (case_match; simplify_eq/=).
  all: try match goal with
           | H : default_error_handler _ = Reply 201 _ |- _ =>
               apply default_error_handler_status in H; lia
           end.
  all: eexists; split; [apply collection_insert|].
  all: rewrite !stored_field by done; unfold image_item.
  all: rewrite ?obj_get_set_eq; split; [done|]; intros; try done.
  all: do 2 eexists; split; [done|].
  all: rewrite obj_get_set_ne by done; by rewrite obj_get_set_eq.
Qed.

Lemma create_server_fields_win_witness :
  ∃ d : document,
    collection
      (serve sample_env
         (POST_services [("image", VStr "mine"); ("createdAt", VStr "then")]
            (Some 1024%N)) empty_world).2 "services"
    = (collection empty_world "services" ++ [d])%list ∧
    obj_get "createdAt" d = VDate (now sample_env) ∧
    (true = true →
     ∃ p f, uploaded sample_env = Stored p f ∧ obj_get "image" d = VStr p).
Proof.
  eapply (create_server_fields_win sample_env
            (POST_services [("image", VStr "mine"); ("createdAt", VStr "then")]
               (Some 1024%N)) empty_world).
  - reflexivity.
  - vm_compute. reflexivity.
Defined.

(** A body that submits both names: the stored document carries the
    server's values in the places the submitted ones held. *)
Example create_overrides_submitted_fields :
  collection
    (serve sample_env
       (POST_services [("image", VStr "mine"); ("createdAt", VStr "then")]
          (Some 1024%N)) empty_world).2 "services"
  = [[("image",
       VStr "https://res.cloudinary.com/demo/anando-computer/a1.png");
      ("createdAt", VDate 1700000000000);
      ("_id", VOid sample_id)]].
Proof. reflexivity. Qed.

(** C7: when the upload of an image-bearing create request stored the
    file and the insert is rejected, the handler asks the media host to
    delete the file; if that call goes through, the file is gone, the
    store is unchanged and the reply is 400 with the insert error's
    message.  If that call is rejected too, nothing swallows the
    rejection: it leaves the [catch] block before the 400 that the
    handler goes on to write, and the file stays. *)
Theorem failed_insert_compensation (e : env) (r : request) (c : string)
    (body : document) (size : N) (p f m : string) (w : world) :
  create_target r = Some (c, true) →
  multipart r = Some (body, Some size) →
  (size ≤ fileSize_limit)%N →
  uploaded e = Stored p f →
  f ≠ "" →
  fault e (CInsertOne c (image_item e body (File p f))) = Some m →
  let trace := (calls w ++ [CInsertOne c (image_item e body (File p f));
                            CDestroy f])%list in
  (fault e (CDestroy f) = None →
   serve e r w
   = (Reply 400 (Json (envelope_of 400 (message_obj m) (VStr m))),
      World (db w) (({[f]} ∪ media w) ∖ {[f]}) trace)) ∧
  (∀ m', fault e (CDestroy f) = Some m' →
         serve e r w = (Rejected m', World (db w) ({[f]} ∪ media w) trace)).
Proof.
  intros Ht Hm Hs Hu Hf Hi trace. subst trace.
  apply N.ltb_ge in Hs. apply String.eqb_neq in Hf.
  destruct r; simpl in Ht, Hm; simplify_eq; run_handler.
  all: rewrite Hs, Hu; simpl; rewrite Hi; simpl; rewrite Hf; simpl.
  all: unfold external; simpl.
  all: split; [intros Hd | intros m' Hd]; rewrite Hd; simpl.
  all: by rewrite <- app_assoc.
Qed.

Lemma failed_insert_compensation_witness :
  serve (banner_env (failing_insert "connection closed"))
    (POST_banners [("title", VStr "Sale")] (Some 2048%N)) empty_world
  = (Reply 400 (Json (envelope_of 400 (message_obj "connection closed")
                        (VStr "connection closed"))),
     World ∅ (({["anando-computer/b7"]} ∪ ∅) ∖ {["anando-computer/b7"]})
       [CInsertOne "banners"
          [("title", VStr "Sale"); ("image", VStr "https://res/b7.png");
           ("createdAt", VDate 5)];
        CDestroy "anando-computer/b7"]) ∧
  serve (banner_env
           (failing_insert_and_destroy "connection closed" "Request Timeout"))
    (POST_banners [("title", VStr "Sale")] (Some 2048%N)) empty_world
  = (Rejected "Request Timeout",
     World ∅ ({["anando-computer/b7"]} ∪ ∅)
       [CInsertOne "banners"
          [("title", VStr "Sale"); ("image", VStr "https://res/b7.png");
           ("createdAt", VDate 5)];
        CDestroy "anando-computer/b7"]).
Proof.
  split.
  - apply (failed_insert_compensation
             (banner_env (failing_insert "connection closed"))
             (POST_banners [("title", VStr "Sale")] (Some 2048%N))
             "banners" [("title", VStr "Sale")] 2048%N
             "https://res/b7.png" "anando-computer/b7" "connection closed"
             empty_world); try reflexivity.
    + by vm_compute.
    + discriminate.
  - apply (proj2 (failed_insert_compensation
                    (banner_env (failing_insert_and_destroy
                                   "connection closed" "Request Timeout"))
                    (POST_banners [("title", VStr "Sale")] (Some 2048%N))
                    "banners" [("title", VStr "Sale")] 2048%N
                    "https://res/b7.png" "anando-computer/b7"
                    "connection closed" empty_world
                    eq_refl eq_refl ltac:(by vm_compute) eq_refl
                    ltac:(discriminate) eq_refl)).
    reflexivity.
Defined.

(** The failing input of C7, run: the insert and the deletion are both
    rejected, no 400 is written and the file is still on the media
    host. *)
Lemma failed_compensation_rejects :
  let out :=
    serve (banner_env
             (failing_insert_and_destroy "connection closed" "Request Timeout"))
      (POST_banners [("title", VStr "Sale")] (Some 2048%N)) empty_world in
  out.1 = Rejected "Request Timeout" ∧
  "anando-computer/b7" ∈ media out.2 ∧
  calls out.2 = [CInsertOne "banners"
                   [("title", VStr "Sale"); ("image", VStr "https://res/b7.png");
                    ("createdAt", VDate 5)];
                 CDestroy "anando-computer/b7"].
Proof.
  split; [reflexivity|]. split; [|reflexivity].
  simpl. set_solver.
Qed.

(** ** Requests by identifier *)

(** What [delete_by_id] answers, case by case. *)
Lemma delete_by_id_malformed (e : env) (c id : string) (w : world) :
  new_ObjectId id = None →
  delete_by_id e c id w
  = (Ok (Reply 400 (Json (envelope_of 400 (message_obj malformed_id_error)
                            (VStr malformed_id_error)))), w).
Proof. intros H. run_handler. by rewrite H. Qed.

Lemma delete_by_id_fault (e : env) (c id : string) (o : ObjectId) (m : string)
    (w : world) :
  new_ObjectId id = Some o →
  fault e (CDeleteOne c (FId o)) = Some m →
  (delete_by_id e c id w).1
  = Ok (Reply 400 (Json (envelope_of 400 (message_obj m) (VStr m)))).
Proof. intros H Hf. run_handler. rewrite H; simpl. by rewrite Hf. Qed.

Lemma delete_by_id_done (e : env) (c id : string) (o : ObjectId) (w : world) :
  new_ObjectId id = Some o →
  fault e (CDeleteOne c (FId o)) = None →
  ∃ r n,
    remove_first (FId o) (collection w c) = (r, n) ∧
    delete_by_id e c id w
    = (Ok (Reply 200 (Json (envelope_of 200 (delete_result n) VUndef))),
       World (<[c := r]> (db w)) (media w)
         (calls w ++ [CDeleteOne c (FId o)])).
Proof.
  intros H Hf. run_handler. rewrite H; simpl. rewrite Hf; simpl.
  unfold collection; simpl.
  destruct (remove_first (FId o) (default [] (db w !! c))) as [r n].
  by exists r, n.
Qed.

Lemma delete_by_id_rejected (e : env) (c id : string) (o : ObjectId)
    (m : string) (w : world) :
  new_ObjectId id = Some o →
  fault e (CDeleteOne c (FId o)) = Some m →
  (delete_by_id e c id w).2
  = World (db w) (media w) (calls w ++ [CDeleteOne c (FId o)]).
Proof. intros H Hf. run_handler. rewrite H; simpl. by rewrite Hf. Qed.

Lemma serve_delete (e : env) (r : request) (c id : string) (w : world) :
  delete_target r = Some (c, id) →
  serve e r w = match delete_by_id e c id w with
                | (Ok rep, w') => (rep, w')
                | (Throw m, w') => (Rejected m, w')
                end.
Proof. destruct r; simpl; intros ?; by simplify_eq. Qed.

(** C4, as the code has it: a delete request whose identifier the
    [ObjectId] constructor accepts, and whose store call goes through,
    is answered 200 with the store's delete result, which counts one
    removed document when some document has that identifier and zero
    when none has; a malformed identifier is answered 400 with the
    constructor's error, before any call to the store; a store fault is
    answered 400 with the store's message, the store unchanged; and no
    delete request at all is answered 404. *)
Theorem delete_by_id_reply (e : env) (r : request) (c id : string) (w : world) :
  delete_target r = Some (c, id) →
  (∀ o, new_ObjectId id = Some o →
        fault e (CDeleteOne c (FId o)) = None →
        ∃ n, (serve e r w).1
             = Reply 200 (Json (envelope_of 200 (delete_result n) VUndef)) ∧
             Z.of_nat (length (collection (serve e r w).2 c)) + n
             = Z.of_nat (length (collection w c)) ∧
             ((n = 1 ∧ ∃ d, d ∈ collection w c ∧ matches (FId o) d = true) ∨
              (n = 0 ∧ ∀ d, d ∈ collection w c → matches (FId o) d = false))) ∧
  (new_ObjectId id = None →
   ∃ m, serve e r w
        = (Reply 400 (Json (envelope_of 400 (message_obj m) (VStr m))), w)) ∧
  (∀ o m, new_ObjectId id = Some o →
          fault e (CDeleteOne c (FId o)) = Some m →
          (serve e r w).1
          = Reply 400 (Json (envelope_of 400 (message_obj m) (VStr m))) ∧
          db (serve e r w).2 = db w) ∧
  (∀ s b, (serve e r w).1 = Reply s b → (s = 200 ∨ s = 400) ∧ s ≠ 404).
Proof.
  intros Ht. rewrite (serve_delete e r c id w Ht).
  split; [|split; [|split]].
  - intros o Ho Hf.
    destruct (delete_by_id_done e c id o w Ho Hf) as (l & n & Hr & ->).
    exists n. split; [done|]. simpl. rewrite collection_insert.
    destruct (List.find (matches (FId o)) (collection w c)) as [d|] eqn:Hd.
    + destruct (remove_first_found _ _ _ Hd) as (l' & Hl' & Hlen).
      rewrite Hl' in Hr. simplify_eq. split; [lia|].
      left. split; [done|]. exists d.
      exact (find_matches_Some (FId o) _ d Hd).
    + rewrite (remove_first_none _ _ Hd) in Hr. simplify_eq. split; [lia|].
      right. split; [done|].
      exact (proj1 (find_matches_None (FId o) _) Hd).
  - intros Ho. rewrite (delete_by_id_malformed e c id w Ho). by eexists.
  - intros o m Ho Hf.
    pose proof (delete_by_id_fault e c id o m w Ho Hf) as H1.
    pose proof (delete_by_id_rejected e c id o m w Ho Hf) as H2.
    destruct (delete_by_id e c id w) as [[rep|?] w']; simpl in *;
      simplify_eq. done.
  - intros s b. destruct (new_ObjectId id) as [o|] eqn:Ho.
    + destruct (fault e (CDeleteOne c (FId o))) as [m|] eqn:Hf.
      * pose proof (delete_by_id_fault e c id o m w Ho Hf) as H.
        destruct (delete_by_id e c id w) as [[rep|?] w']; simpl in *;
          simplify_eq. intros [= <- <-]. split; [by right | done].
      * destruct (delete_by_id_done e c id o w Ho Hf) as (l & n & _ & ->).
        simpl. intros [= <- <-]. split; [by left | done].
    + rewrite (delete_by_id_malformed e c id w Ho). simpl.
      intros [= <- <-]. split; [by right | done].
Qed.

Lemma delete_by_id_reply_witness :
  (∃ n, (serve sample_env (DELETE_services_id sample_hex) service_world).1
        = Reply 200 (Json (envelope_of 200 (delete_result n) VUndef)) ∧
        Z.of_nat (length (collection
          (serve sample_env (DELETE_services_id sample_hex) service_world).2
          "services")) + n
        = Z.of_nat (length (collection service_world "services")) ∧
        ((n = 1 ∧ ∃ d, d ∈ collection service_world "services"
                       ∧ matches (FId sample_id) d = true) ∨
         (n = 0 ∧ ∀ d, d ∈ collection service_world "services"
                       → matches (FId sample_id) d = false))) ∧
  (∃ m, serve sample_env (DELETE_services_id "abc") service_world
        = (Reply 400 (Json (envelope_of 400 (message_obj m) (VStr m))),
           service_world)) ∧
  ((serve (banner_env (failing_delete "connection closed"))
      (DELETE_services_id sample_hex) service_world).1
   = Reply 400 (Json (envelope_of 400 (message_obj "connection closed")
                        (VStr "connection closed"))) ∧
   db (serve (banner_env (failing_delete "connection closed"))
         (DELETE_services_id sample_hex) service_world).2
   = db service_world) ∧
  (∀ s b, (serve sample_env (DELETE_services_id sample_hex) service_world).1
          = Reply s b → (s = 200 ∨ s = 400) ∧ s ≠ 404).
Proof.
  pose proof (delete_by_id_reply sample_env (DELETE_services_id sample_hex)
                "services" sample_hex service_world eq_refl)
    as (H1 & _ & _ & H4).
  pose proof (delete_by_id_reply sample_env (DELETE_services_id "abc")
                "services" "abc" service_world eq_refl)
    as (_ & H2 & _ & _).
  pose proof (delete_by_id_reply (banner_env (failing_delete "connection closed"))
                (DELETE_services_id sample_hex)
                "services" sample_hex service_world eq_refl)
    as (_ & _ & H3 & _).
  split; [apply (H1 sample_id); reflexivity|].
  split; [apply H2; reflexivity|].
  split; [apply (H3 sample_id); reflexivity | exact H4].
Defined.

(** C4 as the specification words it fails on a malformed identifier:
    the reply is 400, not 200. *)
Lemma delete_malformed_id_is_400 :
  (serve sample_env (DELETE_services_id "abc") service_world).1
  = Reply 400 (Json (envelope_of 400 (message_obj malformed_id_error)
                       (VStr malformed_id_error))) ∧
  ¬ ∃ b, (serve sample_env (DELETE_services_id "abc") service_world).1
         = Reply 200 b.
Proof.
  split; [reflexivity|]. intros [b Hb]. vm_compute in Hb. discriminate Hb.
Qed.

(** C5: a request that names a document by an identifier the [ObjectId]
    constructor rejects (any of the four deletes, or the lookup of one
    service) is answered 400, and nothing is asked of the store: the
    trace of calls, the store and the media host are as they were. *)
Theorem malformed_id_rejected_before_query (e : env) (r : request)
    (id : string) (w : world) :
  by_id r = Some id →
  ObjectId_isValid id = false →
  ∃ b, serve e r w = (Reply 400 b, w).
Proof.
  intros Hr Hv. unfold ObjectId_isValid in Hv.
  destruct (new_ObjectId id) as [o|] eqn:Ho; [done|].
  destruct r; simpl in Hr; simplify_eq.
  all: unfold serve, app, delete_services_id, delete_banners_id,
         delete_faqs_id, delete_galleries_id.
  all: try (rewrite delete_by_id_malformed by done; by eexists).
  unfold get_services_id, ObjectId_isValid.
  run_handler. rewrite Ho; simpl. by eexists.
Qed.

Lemma malformed_id_rejected_before_query_witness :
  ∃ b, serve sample_env (DELETE_banners_id "not-an-id") service_world
       = (Reply 400 b, service_world).
Proof.
  apply (malformed_id_rejected_before_query sample_env
           (DELETE_banners_id "not-an-id") "not-an-id" service_world);
    reflexivity.
Defined.

(** C6: [GET /api/services/:id] answers 400 to a malformed identifier,
    404 to a well-formed one that no service document carries, 200 with
    the document to one that a document carries, and 500 when the store
    lookup rejects. *)
Theorem get_service_by_id_reply (e : env) (id : string) (w : world) :
  (ObjectId_isValid id = false →
   (serve e (GET_services_id id) w).1
   = Reply 400 (Json (message_obj "Invalid service ID"))) ∧
  (∀ o, new_ObjectId id = Some o →
        fault e (CFindOne "services" (FId o)) = None →
        (∀ d, d ∈ collection w "services" → matches (FId o) d = false) →
        (serve e (GET_services_id id) w).1
        = Reply 404 (Json (message_obj "Service not found"))) ∧
  (∀ o d, new_ObjectId id = Some o →
          fault e (CFindOne "services" (FId o)) = None →
          List.find (matches (FId o)) (collection w "services") = Some d →
          (serve e (GET_services_id id) w).1
          = Reply 200 (Json (envelope_of 200 (VObj d) (obj_get "message" d)))) ∧
  (∀ o m, new_ObjectId id = Some o →
          fault e (CFindOne "services" (FId o)) = Some m →
          (serve e (GET_services_id id) w).1
          = Reply 500 (Json (envelope_of 500 (message_obj m) (VStr m)))).
Proof.
  unfold serve, app, get_services_id, ObjectId_isValid. run_handler.
  unfold collection; simpl. split; [|split; [|split]].
  - by destruct (new_ObjectId id).
  - intros o Ho Hf Hnone. rewrite Ho; simpl. rewrite Hf; simpl.
    apply (find_matches_None (FId o)) in Hnone. by rewrite Hnone.
  - intros o d Ho Hf Hd. rewrite Ho; simpl. rewrite Hf; simpl.
    by rewrite Hd.
  - intros o m Ho Hf. rewrite Ho; simpl. by rewrite Hf.
Qed.

Lemma get_service_by_id_reply_witness :
  (serve sample_env (GET_services_id "xyz") service_world).1
  = Reply 400 (Json (message_obj "Invalid service ID")) ∧
  (serve sample_env (GET_services_id sample_hex) empty_world).1
  = Reply 404 (Json (message_obj "Service not found")) ∧
  (serve sample_env (GET_services_id sample_hex) service_world).1
  = Reply 200 (Json (envelope_of 200 (VObj service_doc) VUndef)) ∧
  (serve (Env 0 sample_id (failing_find "connection closed")
            (uploaded sample_env))
     (GET_services_id sample_hex) service_world).1
  = Reply 500 (Json (envelope_of 500 (message_obj "connection closed")
                       (VStr "connection closed"))).
Proof.
  split; [|split; [|split]].
  - apply (get_service_by_id_reply sample_env "xyz" service_world).
    reflexivity.
  - apply (proj1 (proj2 (get_service_by_id_reply sample_env sample_hex
                           empty_world)) sample_id); [reflexivity..|].
    intros d Hd. vm_compute in Hd. by apply elem_of_nil in Hd.
  - apply (proj1 (proj2 (proj2 (get_service_by_id_reply sample_env sample_hex
                                  service_world))) sample_id service_doc);
      reflexivity.
  - apply (proj2 (proj2 (proj2 (get_service_by_id_reply
                                  (Env 0 sample_id
                                     (failing_find "connection closed")
                                     (uploaded sample_env))
                                  sample_hex service_world)))
             sample_id "connection closed"); reflexivity.
Defined.

(** ** Login *)

(** C2: when no user document has the submitted email, [user] is [null]
    and the token is signed from [user.email] before [user] is tested:
    the read throws, the [catch] block answers 400 with the error's
    message, and the 401 "Invalid email address" branch is never
    reached. *)
Theorem login_unknown_email (e : env) (email password : string) (w : world) :
  fault e (CFindOne "users" (FEmail email)) = None →
  List.find (matches (FEmail email)) (collection w "users") = None →
  (serve e (POST_login email password) w).1
  = Reply 400 (Json (envelope_of 400 (message_obj null_email_error)
                       (VStr null_email_error))).
Proof.
  intros Hf Hn. unfold serve, app, post_login. run_handler.
  unfold collection in *; simpl. rewrite Hf; simpl. by rewrite Hn.
Qed.

Lemma login_unknown_email_witness :
  (serve sample_env (POST_login "nobody@example.com" "admin") seeded_world).1
  = Reply 400 (Json (envelope_of 400 (message_obj null_email_error)
                       (VStr null_email_error))).
Proof.
  apply (login_unknown_email sample_env "nobody@example.com" "admin"
           seeded_world); reflexivity.
Defined.

(** The other two outcomes are as the handler spells them. *)
Lemma login_wrong_password (e : env) (email password : string) (w : world)
    (u : document) :
  fault e (CFindOne "users" (FEmail email)) = None →
  List.find (matches (FEmail email)) (collection w "users") = Some u →
  strict_eq (obj_get "password" u) (VStr password) = false →
  (serve e (POST_login email password) w).1
  = Reply 401 (Json (envelope_of 401 (message_obj "Invalid password")
                       (VStr "Invalid password"))).
Proof.
  intros Hf Hu Hp. unfold serve, app, post_login. run_handler.
  unfold collection in *; simpl. rewrite Hf; simpl. rewrite Hu; simpl.
  by rewrite Hp.
Qed.

Lemma login_accepted (e : env) (email password : string) (w : world)
    (u : document) :
  fault e (CFindOne "users" (FEmail email)) = None →
  List.find (matches (FEmail email)) (collection w "users") = Some u →
  strict_eq (obj_get "password" u) (VStr password) = true →
  (serve e (POST_login email password) w).1
  = Reply 200
      (Json (envelope_of 200
               (VObj [("user", VObj u);
                      ("token", VJwt [("email", obj_get "email" u)]
                                  "jwt-secret" "100d")])
               VUndef)).
Proof.
  intros Hf Hu Hp. unfold serve, app, post_login. run_handler.
  unfold collection in *; simpl. rewrite Hf; simpl. rewrite Hu; simpl.
  by rewrite Hp.
Qed.

(** No login request is ever answered 401 "Invalid email address". *)
Lemma login_never_invalid_email (e : env) (email password : string)
    (w : world) :
  (serve e (POST_login email password) w).1
  ≠ Reply 401 (Json (envelope_of 401 (message_obj "Invalid email address")
                       (VStr "Invalid email address"))).
Proof.
  unfold serve, app, post_login. run_handler.
  repeat (case_match; simplify_eq/=); done.
Qed.

(** ** The response envelope *)

Section Replies.

Context (P : Z → value → Prop).

Lemma replies_bind {A} (m : M A) (k : A → M reply) :
  (∀ a, replies P (k a)) → replies P (bind m k).
Proof.
  intros Hk w s v. unfold bind.
  destruct (m w) as [[a|err] w1]; [apply Hk | done].
Qed.

Lemma replies_try_catch (m : M reply) (h : string → M reply) :
  replies P m → (∀ err, replies P (h err)) → replies P (try_catch m h).
Proof.
  intros Hm Hh w s v. unfold try_catch.
  destruct (m w) as [[rep|err] w1] eqn:Hw.
  - intros H. apply (Hm w). by rewrite Hw.
  - apply Hh.
Qed.

Lemma replies_json (s : Z) (v : value) : P s v → replies P (json s v).
Proof. intros H w s' v' [= <- <-]. exact H. Qed.

Lemma replies_throw (err : string) : replies P (throw err).
Proof. by intros w s v. Qed.

Lemma replies_if (b : bool) (m1 m2 : M reply) :
  replies P m1 → replies P m2 → replies P (if b then m1 else m2).
Proof. by destruct b. Qed.

End Replies.

Lemma replies_impl (P Q : Z → value → Prop) (m : M reply) :
  (∀ s v, P s v → Q s v) → replies P m → replies Q m.
Proof. intros HPQ Hm w s v H. apply HPQ, (Hm w s v H). Qed.

(** [res.status(s).json(sendResponse(res, s, data))] writes an envelope
    whose [status] is the HTTP status and whose [message] is the
    payload's. *)
Lemma replies_sendResponse (s : Z) (data : value) :
  replies enveloped (let! r := sendResponse s data in json s r).
Proof.
  intros w s' v. unfold sendResponse, get_prop, bind, json, ret, throw.
  destruct data; simpl; intros [= <- <-].
  all: match goal with
       | |- enveloped _ (VObj [_; ("result", ?d); _]) => by exists d
       end.
Qed.

Lemma replies_sendResponse_or (Q : Z → value → Prop) (s : Z) (data : value) :
  replies (λ s v, enveloped s v ∨ Q s v)
    (let! r := sendResponse s data in json s r).
Proof. eapply replies_impl, replies_sendResponse. by left. Qed.

Ltac replies_step :=
  first
    [ apply replies_sendResponse
    | apply replies_sendResponse_or
    | apply replies_try_catch
    | apply replies_bind; intros ?
    | apply replies_throw
    | apply replies_if
    | intros ? ].

Lemma list_all_enveloped (e : env) (c : string) :
  replies enveloped (list_all e c).
Proof. unfold list_all. repeat replies_step. Qed.

Lemma delete_by_id_enveloped (e : env) (c id : string) :
  replies enveloped (delete_by_id e c id).
Proof. unfold delete_by_id. repeat replies_step. Qed.

Lemma post_faqs_enveloped (e : env) (body : document) :
  replies enveloped (post_faqs e body).
Proof. unfold post_faqs. repeat replies_step. Qed.

Lemma get_dashboard_stats_enveloped (e : env) :
  replies enveloped (get_dashboard_stats e).
Proof. unfold get_dashboard_stats. repeat replies_step. Qed.

Lemma post_login_enveloped (e : env) (email password : string) :
  replies enveloped (post_login e email password).
Proof. unfold post_login. repeat replies_step. Qed.

Lemma catch_create_enveloped (e : env) (f : option file) (err : string) :
  replies enveloped (catch_create e f err).
Proof. unfold catch_create. repeat replies_step. Qed.

Lemma post_banners_enveloped (e : env) (body : document) (f : option file) :
  replies enveloped (post_banners e body f).
Proof.
  unfold post_banners. apply replies_try_catch;
    [repeat replies_step | apply catch_create_enveloped].
Qed.

Lemma create_checked_shape (e : env) (c : string) (body : document)
    (f : option file) :
  replies (λ s v, enveloped s v
                  ∨ (s = 400 ∧ v = message_obj "Please upload an image"))
    (create_checked e c body f).
Proof.
  unfold create_checked. apply replies_try_catch.
  - destruct f; [repeat replies_step|].
    apply replies_json. by right.
  - intros err. eapply replies_impl, catch_create_enveloped. by left.
Qed.

Lemma get_services_id_shape (e : env) (id : string) :
  replies (enveloped_or_bare (GET_services_id id)) (get_services_id e id).
Proof.
  unfold get_services_id, enveloped_or_bare. apply replies_try_catch.
  - apply replies_if; [apply replies_json; right; by left|].
    apply replies_bind; intros o. apply replies_bind; intros service.
    apply replies_if; [apply replies_json; right; by right|].
    apply replies_sendResponse_or.
  - intros err. apply replies_sendResponse_or.
Qed.

(** The bare middleware adds no JSON body of its own: Express answers
    its errors with an error page. *)
Lemma with_upload_shape (e : env) (P : Z → value → Prop) (image : option N)
    (handler : option file → M reply) :
  (∀ f, replies P (handler f)) → replies P (with_upload e image handler).
Proof.
  intros Hh. unfold with_upload. apply replies_bind. intros [err|f].
  - intros w s v [= H]. by apply default_error_handler_status in H as [_ [? ?]].
  - apply Hh.
Qed.

Lemma safeUpload_shape (e : env) (body : document) (image : option N) :
  replies (enveloped_or_bare (POST_banners body image))
    (safeUpload e image (post_banners e body)).
Proof.
  unfold safeUpload, enveloped_or_bare. apply replies_bind.
  intros [[code m|st m]|[f|]].
  - apply replies_if; apply replies_json; right; left; split; by eauto.
  - apply replies_json. right. by right.
  - eapply replies_impl, post_banners_enveloped. by left.
  - apply replies_json. right. left. split; by eauto.
Qed.

Lemma app_shape (e : env) (r : request) :
  replies (enveloped_or_bare r) (app e r).
Proof.
  destruct r; simpl.
  1: by intros w s v.
  all: try (eapply replies_impl;
            [ intros s v H; left; exact H
            | first [ apply list_all_enveloped
                    | apply delete_by_id_enveloped
                    | apply post_faqs_enveloped
                    | apply get_dashboard_stats_enveloped
                    | apply post_login_enveloped ] ]).
  - apply with_upload_shape. intros f. apply create_checked_shape.
  - apply get_services_id_shape.
  - apply safeUpload_shape.
  - apply with_upload_shape. intros f. apply create_checked_shape.
Qed.

(** Every JSON body is the envelope or one of the bare bodies of its
    route. *)
Lemma json_reply_enveloped_or_bare (e : env) (r : request) (w : world) (s : Z)
    (v : value) :
  (serve e r w).1 = Reply s (Json v) →
  enveloped s v ∨ bare_reply r s v.
Proof.
  intros H. apply (app_shape e r w). unfold serve in H.
  destruct (app e r w) as [[rep|m] w']; simpl in *; [by subst | done].
Qed.

Lemma bare_not_enveloped (status : Z) (m : string) :
  ¬ enveloped status (message_obj m).
Proof. intros [data H]. discriminate H. Qed.

Lemma serve_replies (e : env) (r : request) (P : Z → value → Prop)
    (w : world) (s : Z) (v : value) :
  replies P (app e r) → (serve e r w).1 = Reply s (Json v) → P s v.
Proof.
  intros Hr H. apply (Hr w). unfold serve in H.
  destruct (app e r w) as [[rep|m] w']; simpl in *; [by subst | done].
Qed.

(** Once a file is there, the checked create handlers write envelopes
    only. *)
Lemma create_checked_enveloped (e : env) (c : string) (body : document)
    (f : file) :
  replies enveloped (create_checked e c body (Some f)).
Proof.
  unfold create_checked. apply replies_try_catch;
    [repeat replies_step | apply catch_create_enveloped].
Qed.

(** A request with an image part reaches its handler with a file, or
    not at all. *)
Lemma with_upload_some_shape (e : env) (P : Z → value → Prop) (size : N)
    (handler : option file → M reply) :
  (∀ f, replies P (handler (Some f))) →
  replies P (with_upload e (Some size) handler).
Proof.
  intros Hh w s v. unfold with_upload, bind, upload_single.
  destruct (fileSize_limit <? size)%N; [done|].
  destruct (uploaded e) as [p f|err]; [apply Hh|].
  intros [= H]. by apply default_error_handler_status in H as [_ [? ?]].
Qed.

(** C3, as the code has it.  The validation exits write a bare
    [{message}] body, which is not the envelope: 400 "Please upload an
    image" on the three image-bearing creates, the upload errors that
    [safeUpload] reports on banners (400 with the size message or with
    the multer error's own, 500 "Error uploading file"), and 400
    "Invalid service ID" and 404 "Service not found" on the lookup of
    one service.  Every other JSON response (every success response,
    every catch-block response, the login's 401s) is the envelope built
    by [sendResponse], whose [status] is the HTTP status and whose
    [message] is the payload's. *)
Theorem json_reply_shape (e : env) (r : request) (w : world) :
  (∀ s m, validation_exit e r w = Some (s, m) →
          (serve e r w).1 = Reply s (Json (message_obj m)) ∧
          ¬ enveloped s (message_obj m)) ∧
  (validation_exit e r w = None →
   ∀ s v, (serve e r w).1 = Reply s (Json v) → enveloped s v).
Proof.
  split.
  - intros s m Hv. split; [|apply bare_not_enveloped].
    destruct r as [|body [size|]| |id| |body [size|]| | | | | |body [size|]| | | | ];
      simpl in Hv; try done.
    + simplify_eq. by run_handler.
    + unfold serve, app, get_services_id, ObjectId_isValid. run_handler.
      unfold collection in *; simpl.
      destruct (new_ObjectId id) as [o|]; simpl; [|by simplify_eq].
      destruct (fault e (CFindOne "services" (FId o))); simpl; [done|].
      destruct (List.find _ _); by simplify_eq.
    + destruct (fileSize_limit <? size)%N eqn:Hs.
      * simplify_eq. apply N.ltb_lt in Hs. by rewrite post_banners_oversized.
      * unfold serve, app, safeUpload, bind, upload_single, json, ret.
        rewrite Hs. destruct (uploaded e) as [p f|[code m'|st m']]; [done| |].
        -- destruct (String.eqb code "LIMIT_FILE_SIZE"); by simplify_eq.
        -- by simplify_eq.
    + simplify_eq. by run_handler.
    + simplify_eq. by run_handler.
  - intros Hv s v.
    destruct r as [|body [size|]| |id| |body [size|]| | | | | |body [size|]| | | | ];
      simpl in Hv; try done.
    all: try (apply serve_replies; simpl;
              first [ apply list_all_enveloped
                    | apply delete_by_id_enveloped
                    | apply post_faqs_enveloped
                    | apply get_dashboard_stats_enveloped
                    | apply post_login_enveloped
                    | apply with_upload_some_shape; intros f;
                      apply create_checked_enveloped ]).
    + unfold serve, app, get_services_id, ObjectId_isValid. run_handler.
      unfold collection in *; simpl.
      destruct (new_ObjectId id) as [o|]; simpl; [|done].
      destruct (fault e (CFindOne "services" (FId o))) as [msg|]; simpl.
      * intros [= <- <-]. by exists (message_obj msg).
      * destruct (List.find _ _) as [d|]; [|done]. simpl.
        intros [= <- <-]. by exists (VObj d).
    + destruct (fileSize_limit <? size)%N eqn:Hs; [done|].
      unfold serve, app, safeUpload, bind, upload_single.
      rewrite Hs. destruct (uploaded e) as [p f|[code m'|st m']] eqn:Hu.
      * intros H. apply (post_banners_enveloped e body (Some (File p f))
                           (World (db w) ({[f]} ∪ media w) (calls w))).
        destruct (post_banners _ _ _ _) as [[rep|?] w']; simpl in *;
          [by subst | done].
      * by destruct (String.eqb code "LIMIT_FILE_SIZE").
      * done.
Qed.

Lemma json_reply_shape_witness :
  ((serve sample_env (GET_services_id "xyz") service_world).1
   = Reply 400 (Json (message_obj "Invalid service ID")) ∧
   ¬ enveloped 400 (message_obj "Invalid service ID")) ∧
  enveloped 400
    (envelope_of 400 (message_obj "connection closed")
       (VStr "connection closed")).
Proof.
  split.
  - apply (proj1 (json_reply_shape sample_env (GET_services_id "xyz")
                    service_world)).
    reflexivity.
  - apply (proj2 (json_reply_shape
                    (banner_env (failing_insert "connection closed"))
                    (POST_banners [("title", VStr "Sale")] (Some 2048%N))
                    empty_world)); reflexivity.
Defined.

(** C3 as the specification words it fails on the lookup of one service
    by a malformed identifier: the body has neither [status] nor
    [result]. *)
Lemma invalid_id_reply_is_bare :
  (serve sample_env (GET_services_id "xyz") service_world).1
  = Reply 400 (Json (VObj [("message", VStr "Invalid service ID")])) ∧
  ¬ enveloped 400 (VObj [("message", VStr "Invalid service ID")]).
Proof. split; [reflexivity | apply bare_not_enveloped]. Qed.

(** ** Process-level events *)

(** The listeners that only log leave the pending exit as it is. *)
Lemma emit_logging_listeners (reason : string) (n : nat) (p : Lifecycle.proc) :
  ∃ lines,
    Lifecycle.emit
      (repeat (Lifecycle.startServer_unhandledRejection reason) n) p
    = (Lifecycle.Returned,
       Lifecycle.Proc (Lifecycle.console p ++ lines)
         (Lifecycle.exit_on_close p)).
Proof.
  revert p. induction n as [|n IH]; intros p; simpl.
  - exists []. rewrite app_nil_r. by destruct p.
  - destruct (IH (Lifecycle.console_error
                    ("Unhandled Rejection at: reason: " ++ reason) p))
      as [lines ->].
    eexists. simpl. by rewrite <- app_assoc.
Qed.

Lemma raise_uncaught_exits (starts : nat) (error : string)
    (p : Lifecycle.proc) :
  (Lifecycle.raise_uncaught starts error p).1 = Lifecycle.Exited 1.
Proof. by destruct starts. Qed.

Lemma raise_uncaught_logged (starts : nat) (error : string)
    (p : Lifecycle.proc) :
  (1 ≤ starts)%nat →
  Lifecycle.raise_uncaught starts error p
  = (Lifecycle.Exited 1,
     Lifecycle.console_error ("Uncaught Exception: " ++ error) p).
Proof. destruct starts; [lia | done]. Qed.

Lemma raise_uncaught_console (starts : nat) (error : string)
    (p : Lifecycle.proc) :
  ∃ lines,
    Lifecycle.console (Lifecycle.raise_uncaught starts error p).2
    = (Lifecycle.console p ++ lines)%list.
Proof.
  destruct starts; simpl.
  - exists []. by rewrite app_nil_r.
  - by eexists.
Qed.

(** C8, as the code has it: an unhandled rejection is logged and ends
    the process with code 1, at once or as soon as the server has
    closed, whatever [server] stands for where the first listener reads
    it; of the two listeners registered for rejections, only the one
    that [startServer] registers logs and returns.  An uncaught
    exception is logged and ends the process with code 1 at once. *)
Theorem unhandled_rejection_exits (server : Lifecycle.binding) (starts : nat)
    (reason error : string) (p : Lifecycle.proc) :
  (1 ≤ starts)%nat →
  let after :=
    Lifecycle.dispatch server starts (Lifecycle.unhandledRejection reason) p in
  (Lifecycle.exits_with 1 after ∧
   ∃ lines, Lifecycle.console after.2
            = (Lifecycle.console p
                 ++ ("Unhandled Promise Rejection: " +:+ reason) :: lines)%list) ∧
  Lifecycle.startServer_unhandledRejection reason p
  = (Lifecycle.Returned,
     Lifecycle.console_error ("Unhandled Rejection at: reason: " ++ reason) p) ∧
  Lifecycle.dispatch server starts (Lifecycle.uncaughtException error) p
  = (Lifecycle.Exited 1,
     Lifecycle.console_error ("Uncaught Exception: " ++ error) p).
Proof.
  intros Hs after. subst after. split; [|split; [done|]].
  - destruct server as [|[]]; simpl.
    + split; [left; apply raise_uncaught_exits|].
      destruct (raise_uncaught_console starts "server is not defined"
                  (Lifecycle.console_error
                     ("Unhandled Promise Rejection: " ++ reason) p))
        as [lines ->].
      exists lines. simpl. by rewrite <- app_assoc.
    + destruct (emit_logging_listeners reason starts
                  (Lifecycle.Proc
                     (Lifecycle.console p
                        ++ ["Unhandled Promise Rejection: " ++ reason])
                     (Some 1))) as [lines ->].
      split; [by right|]. exists lines. simpl. by rewrite <- app_assoc.
    + split; [by left|]. by exists [].
  - simpl. by apply raise_uncaught_logged.
Qed.

Lemma unhandled_rejection_exits_witness :
  let after :=
    Lifecycle.dispatch (Lifecycle.Bound true) 1
      (Lifecycle.unhandledRejection "connection reset")
      (Lifecycle.Proc [] None) in
  (Lifecycle.exits_with 1 after ∧
   ∃ lines, Lifecycle.console after.2
            = ([] ++ ("Unhandled Promise Rejection: " +:+ "connection reset")
                       :: lines)%list) ∧
  Lifecycle.startServer_unhandledRejection "connection reset"
    (Lifecycle.Proc [] None)
  = (Lifecycle.Returned,
     Lifecycle.console_error
       ("Unhandled Rejection at: reason: " ++ "connection reset")
       (Lifecycle.Proc [] None)) ∧
  Lifecycle.dispatch (Lifecycle.Bound true) 1
    (Lifecycle.uncaughtException "boom") (Lifecycle.Proc [] None)
  = (Lifecycle.Exited 1,
     Lifecycle.console_error ("Uncaught Exception: " ++ "boom")
       (Lifecycle.Proc [] None)).
Proof.
  apply (unhandled_rejection_exits (Lifecycle.Bound true) 1 "connection reset"
           "boom" (Lifecycle.Proc [] None)).
  lia.
Defined.

(** C8 as the specification words it fails: after one start of the
    server, an unhandled rejection ends the process. *)
Lemma rejection_ends_process :
  (Lifecycle.dispatch Lifecycle.server_at_top_level 1
     (Lifecycle.unhandledRejection "connection reset")
     (Lifecycle.Proc [] None)).1
  = Lifecycle.Exited 1.
Proof. reflexivity. Qed.

(** ** The admin seed *)

(** One run of the seed, case by case. *)
Lemma seedAdmin_present (e : env) (w : world) (d : document) :
  List.find (matches (FEmail admin_email)) (collection w "users") = Some d →
  collection (seedAdmin e w).2 "users" = collection w "users".
Proof.
  intros Hd. unfold seedAdmin. run_handler. unfold collection in *; simpl.
  destruct (fault e (CFindOne "users" (FEmail admin_email))); simpl; [done|].
  by rewrite Hd.
Qed.

Lemma seedAdmin_absent (e : env) (w : world) :
  fault e (CFindOne "users" (FEmail admin_email)) = None →
  fault e (CInsertOne "users" seed_doc) = None →
  List.find (matches (FEmail admin_email)) (collection w "users") = None →
  collection (seedAdmin e w).2 "users"
  = (collection w "users"
       ++ [obj_set "_id" (VOid (fresh_id e)) seed_doc])%list.
Proof.
  intros Hf Hi Hd. unfold seedAdmin. run_handler. unfold collection in *; simpl.
  rewrite Hf; simpl. rewrite Hd; simpl.
  unfold seed_doc in Hi. rewrite Hi; simpl. by rewrite lookup_insert_eq.
Qed.

(** X19: a run of the seed never takes the store from at most one admin
    document to more, whatever its store calls do. *)
Lemma seedAdmin_at_most_one (e : env) (w : world) :
  (length (admins w) ≤ 1)%nat → (length (admins (seedAdmin e w).2) ≤ 1)%nat.
Proof.
  intros Hle. unfold admins in *.
  destruct (List.find (matches (FEmail admin_email)) (collection w "users"))
    as [d|] eqn:Hd.
  - by rewrite (seedAdmin_present e w d Hd).
  - destruct (fault e (CFindOne "users" (FEmail admin_email))) as [m|] eqn:Hf;
      [|destruct (fault e (CInsertOne "users" seed_doc)) as [m|] eqn:Hi].
    + unfold seedAdmin. run_handler. unfold collection in *; simpl.
      by rewrite Hf.
    + unfold seedAdmin. run_handler. unfold collection in *; simpl.
      rewrite Hf; simpl. rewrite Hd; simpl.
      unfold seed_doc in Hi. by rewrite Hi.
    + rewrite (seedAdmin_absent e w Hf Hi Hd).
      by rewrite List.filter_app, (find_None_filter _ _ Hd).
Qed.

(** C9, as the code has it: for a store that holds at most one user
    document with the admin email, and a first run whose store calls go
    through, two runs of the seed leave exactly one such document; the
    second run inserts nothing, whatever its store calls do. *)
Theorem seedAdmin_twice (e1 e2 : env) (w : world) :
  fault e1 (CFindOne "users" (FEmail admin_email)) = None →
  fault e1 (CInsertOne "users" seed_doc) = None →
  (length (admins w) ≤ 1)%nat →
  let w1 := (seedAdmin e1 w).2 in
  let w2 := (seedAdmin e2 w1).2 in
  length (admins w2) = 1%nat ∧
  collection w2 "users" = collection w1 "users".
Proof.
  intros Hf Hi Hle w1 w2. subst w1 w2. unfold admins in *.
  destruct (List.find (matches (FEmail admin_email)) (collection w "users"))
    as [d|] eqn:Hd.
  - assert (H1 := seedAdmin_present e1 w d Hd).
    assert (H2 : collection (seedAdmin e2 (seedAdmin e1 w).2).2 "users"
                 = collection w "users").
    { rewrite <- H1. apply (seedAdmin_present e2 _ d). by rewrite H1. }
    rewrite H2, H1. split; [|done].
    apply find_some in Hd as [Hin Hm].
    assert (In d (List.filter (matches (FEmail admin_email))
                    (collection w "users"))) as Hin'
      by (apply filter_In; by split).
    destruct (List.filter _ _) as [|? [|? ?]]; simpl in *; [done|done|lia].
  - assert (H1 := seedAdmin_absent e1 w Hf Hi Hd).
    assert (Hfound : List.find (matches (FEmail admin_email))
                       (collection (seedAdmin e1 w).2 "users")
                     = Some (obj_set "_id" (VOid (fresh_id e1)) seed_doc)).
    { rewrite H1, (find_app_None _ _ _ Hd). reflexivity. }
    rewrite (seedAdmin_present e2 _ _ Hfound). split; [|done].
    rewrite H1, List.filter_app, (find_None_filter _ _ Hd). reflexivity.
Qed.

Lemma seedAdmin_twice_witness :
  length (admins (seedAdmin sample_env (seedAdmin sample_env empty_world).2).2)
  = 1%nat ∧
  collection (seedAdmin sample_env (seedAdmin sample_env empty_world).2).2
    "users"
  = collection (seedAdmin sample_env empty_world).2 "users".
Proof.
  apply (seedAdmin_twice sample_env sample_env empty_world);
    [reflexivity | reflexivity | vm_compute; lia].
Defined.

(** C9 as the specification words it fails on a store that already
    holds two user documents with the admin email: two runs leave
    both. *)
Lemma seedAdmin_keeps_duplicates :
  length (admins (seedAdmin sample_env
                    (seedAdmin sample_env twice_seeded_world).2).2) = 2%nat.
Proof. reflexivity. Qed.

(** * Further properties *)

(** ** Spreading the submitted fields *)

Lemma obj_set_absent (k : string) (v : value) (o : document) :
  k ∉ o.*1 → obj_set k v o = (o ++ [(k, v)])%list.
Proof.
  induction o as [|[k' v'] o IH]; simpl; [done|].
  intros Hk. apply not_elem_of_cons in Hk as [Hne Hk].
  rewrite decide_False by done. by rewrite IH.
Qed.

Lemma spread_from (body acc : document) :
  NoDup (acc.*1 ++ body.*1) →
  fold_left (λ o kv, obj_set kv.1 kv.2 o) body acc = (acc ++ body)%list.
Proof.
  revert acc. induction body as [|[k v] body IH]; intros acc Hnd; simpl.
  - by rewrite app_nil_r.
  - simpl in Hnd. rewrite obj_set_absent.
    + rewrite IH; [by rewrite <- app_assoc|].
      by rewrite fmap_app, <- app_assoc.
    + apply NoDup_app in Hnd as (_ & Hd & _).
      intros Hin. apply (Hd k Hin). apply list_elem_of_here.
Qed.

(** A body whose field names are all distinct is spread as it is. *)
Lemma spread_NoDup (body : document) : NoDup body.*1 → spread body = body.
Proof. intros H. unfold spread. by rewrite spread_from. Qed.

Lemma obj_get_absent (k : string) (o : document) :
  k ∉ o.*1 → obj_get k o = VUndef.
Proof.
  induction o as [|[k' v'] o IH]; simpl; [done|].
  intros Hk. apply not_elem_of_cons in Hk as [Hne Hk].
  rewrite decide_False by done. by apply IH.
Qed.

Lemma obj_set_keys (k : string) (v : value) (o : document) (x : string) :
  x ∈ (obj_set k v o).*1 → x = k ∨ x ∈ o.*1.
Proof.
  induction o as [|[k' v'] o IH]; simpl.
  - intros H. apply list_elem_of_singleton in H. by left.
  - destruct (decide (k = k')) as [->|Hne]; simpl.
    + intros H. apply elem_of_cons in H as [->|H]; [by left|].
      right. by apply list_elem_of_further.
    + intros H. apply elem_of_cons in H as [->|H].
      * right. apply list_elem_of_here.
      * destruct (IH H) as [->|Hx]; [by left|].
        right. by apply list_elem_of_further.
Qed.

Lemma spread_keys (body : document) (x : string) :
  x ∈ (spread body).*1 → x ∈ body.*1.
Proof.
  unfold spread.
  assert (∀ acc, x ∈ (fold_left (λ o kv, obj_set kv.1 kv.2 o) body acc).*1 →
                 x ∈ acc.*1 ∨ x ∈ body.*1) as H.
  { induction body as [|[k v] body IH]; intros acc; simpl; [by left|].
    intros Hx. destruct (IH _ Hx) as [Hacc|Hb].
    - destruct (obj_set_keys _ _ _ _ Hacc) as [->|Ha]; [|by left].
      right. apply list_elem_of_here.
    - right. by apply list_elem_of_further. }
  intros Hx. destruct (H [] Hx) as [Hnil|Hb]; [|done].
  by apply elem_of_nil in Hnil.
Qed.

(** An item built from a body that submits no [_id] has none. *)
Lemma built_item_no_id (e : env) (body : document) (f : option file) :
  "_id" ∉ body.*1 → obj_get "_id" (built_item e body f) = VUndef.
Proof.
  intros Hid. assert (obj_get "_id" (spread body) = VUndef) as Hs.
  { apply obj_get_absent. intros H. by apply Hid, spread_keys. }
  destruct f; simpl; unfold image_item;
    rewrite ?obj_get_set_ne by done; exact Hs.
Qed.

Lemma primary_key_fresh (e : env) (body : document) (f : option file) :
  "_id" ∉ body.*1 → primary_key e (built_item e body f) = VOid (fresh_id e).
Proof. intros H. unfold primary_key. by rewrite built_item_no_id. Qed.

(** ** Creates that go through *)

Lemma collection_insert_other (c c' : string) (l : list document)
    (d : gmap string (list document)) (m : gset string) (cs : list call) :
  c ≠ c' → collection (World (<[c := l]> d) m cs) c' = default [] (d !! c').
Proof. intros H. unfold collection; simpl. by rewrite lookup_insert_ne. Qed.

(** A create request that reaches its handler with all it needs, and
    whose insert is accepted. *)
Lemma serve_create (e : env) (r : request) (c : string)
    (body : document) (f : option file) (w : world) :
  creates e r = Some (c, body, f) →
  fault e (CInsertOne c (built_item e body f)) = None →
  serve e r w
  = (Reply 201 (Json (envelope_of 201
                        (insert_ack (primary_key e (built_item e body f)))
                        VUndef)),
     World (<[c := (collection w c
                      ++ [stored_doc e (built_item e body f)])%list]> (db w))
       (media_with f (media w))
       (calls w ++ [CInsertOne c (built_item e body f)])).
Proof.
  intros Hc Hf.
  destruct r; simpl in Hc; try done.
  all: repeat case_match; simplify_eq/=.
  all: run_handler; unfold collection; simpl.
  all: try match goal with
           | H : (fileSize_limit <? _)%N = false |- _ => rewrite H
           end.
  all: try match goal with
           | H : uploaded _ = Stored _ _ |- _ => rewrite H
           end.
  all: simpl; unfold built_item in Hf; by rewrite Hf.
Qed.

(** X1: a create request whose upload, if it has one, stored its file
    and whose insert is accepted is answered 201 with the
    acknowledgement of the insert under the document's primary key; its
    collection gains exactly that document, as the last one, and every
    other collection is as it was. *)
Theorem create_accepted (e : env) (r : request) (c : string)
    (body : document) (f : option file) (w : world) :
  creates e r = Some (c, body, f) →
  fault e (CInsertOne c (built_item e body f)) = None →
  let item := built_item e body f in
  let out := serve e r w in
  out.1 = Reply 201 (Json (envelope_of 201 (insert_ack (primary_key e item))
                             VUndef)) ∧
  collection out.2 c = (collection w c ++ [stored_doc e item])%list ∧
  obj_get "_id" (stored_doc e item) = primary_key e item ∧
  (∀ c', c ≠ c' → collection out.2 c' = collection w c') ∧
  media out.2 = media_with f (media w).
Proof.
  intros Hc Hf item out. subst item out.
  rewrite (serve_create e r c body f w Hc Hf); simpl.
  split; [done|]. split; [apply collection_insert|].
  split; [apply obj_get_set_eq|]. split; [|done].
  intros c' Hne. by apply collection_insert_other.
Qed.

Lemma create_accepted_witness :
  let item := built_item sample_env faq_body None in
  let out := serve sample_env (POST_faqs faq_body) empty_world in
  out.1 = Reply 201 (Json (envelope_of 201
                             (insert_ack (primary_key sample_env item))
                             VUndef)) ∧
  collection out.2 "faqs"
  = (collection empty_world "faqs" ++ [stored_doc sample_env item])%list ∧
  obj_get "_id" (stored_doc sample_env item) = primary_key sample_env item ∧
  (∀ c', "faqs" ≠ c' → collection out.2 c' = collection empty_world c') ∧
  media out.2 = media_with None (media empty_world).
Proof.
  apply (create_accepted sample_env (POST_faqs faq_body) "faqs" faq_body None
           empty_world); reflexivity.
Defined.

(** X2: the stored document keeps every submitted field under its name
    and value, apart from [createdAt], [image] and [_id], provided the
    submitted field names are distinct; a submitted [_id] that is neither
    [null] nor [undefined] is kept as well, as the primary key. *)
Theorem create_keeps_submitted_fields (e : env) (r : request) (c : string)
    (body : document) (f : option file) (w : world) :
  creates e r = Some (c, body, f) →
  fault e (CInsertOne c (built_item e body f)) = None →
  NoDup body.*1 →
  ∃ d, last (collection (serve e r w).2 c) = Some d ∧
       (∀ k, k ≠ "createdAt" → k ≠ "image" → k ≠ "_id" →
             obj_get k d = obj_get k body) ∧
       (obj_get "_id" body ≠ VUndef → obj_get "_id" body ≠ VNull →
        obj_get "_id" d = obj_get "_id" body).
Proof.
  intros Hc Hf Hnd. rewrite (serve_create e r c body f w Hc Hf); simpl.
  rewrite collection_insert. eexists. split; [apply last_snoc|].
  assert (∀ k, k ≠ "createdAt" → k ≠ "image" →
               obj_get k (built_item e body f) = obj_get k body) as Hk.
  { intros k H1 H2. destruct f; simpl; unfold image_item.
    - rewrite !obj_get_set_ne by done. by rewrite spread_NoDup.
    - rewrite obj_get_set_ne by done. by rewrite spread_NoDup. }
  split.
  - intros k H1 H2 H3. unfold stored_doc.
    rewrite obj_get_set_ne by done. by apply Hk.
  - intros Hu Hn. unfold stored_doc. rewrite obj_get_set_eq.
    unfold primary_key. rewrite Hk by done.
    by destruct (obj_get "_id" body).
Qed.

Lemma create_keeps_submitted_fields_witness :
  ∃ d, last (collection (serve sample_env (POST_faqs faq_body) empty_world).2
               "faqs") = Some d ∧
       (∀ k, k ≠ "createdAt" → k ≠ "image" → k ≠ "_id" →
             obj_get k d = obj_get k faq_body) ∧
       (obj_get "_id" faq_body ≠ VUndef → obj_get "_id" faq_body ≠ VNull →
        obj_get "_id" d = obj_get "_id" faq_body).
Proof.
  apply (create_keeps_submitted_fields sample_env (POST_faqs faq_body) "faqs"
           faq_body None empty_world); [reflexivity | reflexivity |].
  apply (bool_decide_unpack _). by vm_compute.
Defined.

(** ** Creating, then reading or deleting *)

Lemma stored_doc_matches (e : env) (item : document) (o : ObjectId) :
  primary_key e item = VOid o → matches (FId o) (stored_doc e item) = true.
Proof.
  intros H. unfold stored_doc, matches. rewrite obj_get_set_eq, H.
  unfold field_is, is_oid. by rewrite bool_decide_eq_true_2.
Qed.

Lemma find_new_document (e : env) (item : document) (o : ObjectId)
    (l : list document) :
  primary_key e item = VOid o →
  (∀ d, d ∈ l → matches (FId o) d = false) →
  List.find (matches (FId o)) (l ++ [stored_doc e item])
  = Some (stored_doc e item).
Proof.
  intros Hk Hl. apply find_matches_None in Hl.
  rewrite (find_app_None _ _ _ Hl). unfold List.find.
  by rewrite (stored_doc_matches e item o Hk).
Qed.

Lemma remove_new_document (e : env) (item : document) (o : ObjectId)
    (l : list document) :
  primary_key e item = VOid o →
  (∀ d, d ∈ l → matches (FId o) d = false) →
  remove_first (FId o) (l ++ [stored_doc e item]) = (l, 1).
Proof.
  intros Hk Hl. induction l as [|d l IH]; simpl.
  - change (field_is (is_oid o) (obj_get "_id" (stored_doc e item)))
      with (matches (FId o) (stored_doc e item)).
    by rewrite (stored_doc_matches e item o Hk).
  - change (field_is (is_oid o) (obj_get "_id" d)) with (matches (FId o) d).
    rewrite (Hl d) by apply list_elem_of_here.
    rewrite IH; [done|]. intros d' Hd'. apply Hl. by apply list_elem_of_further.
Qed.

(** The lookup of one service that a document answers. *)
Lemma serve_get_found (e : env) (id : string) (o : ObjectId) (d : document)
    (w : world) :
  new_ObjectId id = Some o →
  fault e (CFindOne "services" (FId o)) = None →
  List.find (matches (FId o)) (collection w "services") = Some d →
  (serve e (GET_services_id id) w).1
  = Reply 200 (Json (envelope_of 200 (VObj d) (obj_get "message" d))).
Proof.
  intros Ho Hf Hd. unfold serve, app, get_services_id, ObjectId_isValid.
  run_handler. unfold collection in *; simpl.
  rewrite Ho; simpl. rewrite Hf; simpl. by rewrite Hd.
Qed.

(** X3: a service created from a body without [_id] is found again by
    the identifier the driver generated for it, as long as no older
    service carries that identifier: the lookup answers 200 with the
    stored document. *)
Theorem create_then_get (e e' : env) (r : request) (body : document)
    (f : option file) (id : string) (w : world) :
  creates e r = Some ("services", body, f) →
  fault e (CInsertOne "services" (built_item e body f)) = None →
  "_id" ∉ body.*1 →
  new_ObjectId id = Some (fresh_id e) →
  (∀ d, d ∈ collection w "services" → matches (FId (fresh_id e)) d = false) →
  fault e' (CFindOne "services" (FId (fresh_id e))) = None →
  let d := stored_doc e (built_item e body f) in
  (serve e' (GET_services_id id) (serve e r w).2).1
  = Reply 200 (Json (envelope_of 200 (VObj d) (obj_get "message" d))).
Proof.
  intros Hc Hf Hid Ho Hfresh Hf' d. subst d.
  apply (serve_get_found e' id (fresh_id e)); [done..|].
  rewrite (serve_create e r _ body f w Hc Hf); simpl.
  rewrite collection_insert. apply find_new_document; [|done].
  by apply primary_key_fresh.
Qed.

Lemma create_then_get_witness :
  let d := stored_doc sample_env
             (built_item sample_env [("title", VStr "Repair")]
                (Some (File "https://res.cloudinary.com/demo/anando-computer/a1.png"
                            "anando-computer/a1"))) in
  (serve sample_env (GET_services_id sample_hex)
     (serve sample_env (POST_services [("title", VStr "Repair")] (Some 1024%N))
        empty_world).2).1
  = Reply 200 (Json (envelope_of 200 (VObj d) (obj_get "message" d))).
Proof.
  apply (create_then_get sample_env sample_env
           (POST_services [("title", VStr "Repair")] (Some 1024%N))
           [("title", VStr "Repair")]
           (Some (File "https://res.cloudinary.com/demo/anando-computer/a1.png"
                       "anando-computer/a1"))
           sample_hex empty_world); try reflexivity.
  - apply (bool_decide_unpack _). by vm_compute.
  - intros d Hd. vm_compute in Hd. by apply elem_of_nil in Hd.
Defined.

(** X4: deleting a document by the identifier the driver generated for
    it right after its creation removes that one document: the delete
    result counts one, and the collection is back to what it was before
    the create. *)
Theorem create_then_delete (e e' : env) (r r' : request) (c : string)
    (body : document) (f : option file) (id : string) (w : world) :
  creates e r = Some (c, body, f) →
  fault e (CInsertOne c (built_item e body f)) = None →
  "_id" ∉ body.*1 →
  delete_target r' = Some (c, id) →
  new_ObjectId id = Some (fresh_id e) →
  (∀ d, d ∈ collection w c → matches (FId (fresh_id e)) d = false) →
  fault e' (CDeleteOne c (FId (fresh_id e))) = None →
  let out := serve e' r' (serve e r w).2 in
  out.1 = Reply 200 (Json (envelope_of 200 (delete_result 1) VUndef)) ∧
  collection out.2 c = collection w c.
Proof.
  intros Hc Hf Hid Ht Ho Hfresh Hf' out. subst out.
  rewrite (serve_delete e' r' c id _ Ht).
  destruct (delete_by_id_done e' c id (fresh_id e) (serve e r w).2 Ho Hf')
    as (l & n & Hr & ->).
  rewrite (serve_create e r c body f w Hc Hf) in Hr. simpl in Hr.
  rewrite collection_insert in Hr.
  rewrite (remove_new_document e _ (fresh_id e)) in Hr;
    [|by apply primary_key_fresh|done].
  simplify_eq. simpl. by rewrite collection_insert.
Qed.

Lemma create_then_delete_witness :
  let out := serve sample_env (DELETE_faqs_id sample_hex)
               (serve sample_env (POST_faqs faq_body) empty_world).2 in
  out.1 = Reply 200 (Json (envelope_of 200 (delete_result 1) VUndef)) ∧
  collection out.2 "faqs" = collection empty_world "faqs".
Proof.
  apply (create_then_delete sample_env sample_env (POST_faqs faq_body)
           (DELETE_faqs_id sample_hex) "faqs" faq_body None sample_hex
           empty_world); try reflexivity.
  - apply (bool_decide_unpack _). by vm_compute.
  - intros d Hd. vm_compute in Hd. by apply elem_of_nil in Hd.
Defined.

(** ** Lists and counts *)

(** What a list request answers, and the one call it makes. *)
Lemma serve_list (e : env) (r : request) (c : string) (w : world) :
  list_target r = Some c →
  serve e r w
  = (match fault e (CFind c) with
     | None => Reply 200 (Json (envelope_of 200
                                  (VArr (VObj <$> collection w c)) VUndef))
     | Some m => Reply 400 (Json (envelope_of 400 (message_obj m) (VStr m)))
     end,
     World (db w) (media w) (calls w ++ [CFind c])).
Proof.
  intros Ht. destruct r; simpl in Ht; simplify_eq.
  all: unfold serve, app, get_services, get_banners, get_faqs, get_galleries.
  all: run_handler; unfold collection; simpl.
  all: by destruct (fault e (CFind _)).
Qed.

(** X5: a list request whose store call goes through is answered 200
    with every document of its collection, oldest insert first, and
    changes neither the store nor the media host; when the store call is
    rejected the answer is 400 with the store's message. *)
Theorem list_reply (e : env) (r : request) (c : string) (w : world) :
  list_target r = Some c →
  let out := serve e r w in
  (fault e (CFind c) = None →
   out.1 = Reply 200 (Json (envelope_of 200 (VArr (VObj <$> collection w c))
                              VUndef))) ∧
  (∀ m, fault e (CFind c) = Some m →
        out.1 = Reply 400 (Json (envelope_of 400 (message_obj m) (VStr m)))) ∧
  db out.2 = db w ∧ media out.2 = media w.
Proof.
  intros Ht out. subst out. rewrite (serve_list e r c w Ht); simpl.
  split; [by intros ->|]. split; [by intros m ->|done].
Qed.

Lemma list_reply_witness :
  let out := serve sample_env GET_services service_world in
  out.1 = Reply 200 (Json (envelope_of 200
                             (VArr (VObj <$> collection service_world "services"))
                             VUndef)) ∧
  db out.2 = db service_world ∧ media out.2 = media service_world.
Proof.
  pose proof (list_reply sample_env GET_services "services" service_world
                eq_refl) as (H1 & _ & H2).
  split; [apply H1; reflexivity | exact H2].
Defined.

(** X6: after a create that went through, the list of the same resource
    shows the documents that were there, in their order, followed by the
    new one. *)
Theorem create_then_list (e e' : env) (r r' : request) (c : string)
    (body : document) (f : option file) (w : world) :
  creates e r = Some (c, body, f) →
  fault e (CInsertOne c (built_item e body f)) = None →
  list_target r' = Some c →
  fault e' (CFind c) = None →
  (serve e' r' (serve e r w).2).1
  = Reply 200
      (Json (envelope_of 200
               (VArr ((VObj <$> collection w c)
                        ++ [VObj (stored_doc e (built_item e body f))]))
               VUndef)).
Proof.
  intros Hc Hf Ht Hf'. rewrite (serve_list e' r' c _ Ht), Hf'; simpl.
  rewrite (serve_create e r c body f w Hc Hf); simpl.
  by rewrite collection_insert, fmap_app.
Qed.

Lemma create_then_list_witness :
  (serve sample_env GET_faqs
     (serve sample_env (POST_faqs faq_body) empty_world).2).1
  = Reply 200
      (Json (envelope_of 200
               (VArr ((VObj <$> collection empty_world "faqs")
                        ++ [VObj (stored_doc sample_env
                                    (built_item sample_env faq_body None))]))
               VUndef)).
Proof.
  apply (create_then_list sample_env sample_env (POST_faqs faq_body) GET_faqs
           "faqs" faq_body None empty_world); reflexivity.
Defined.

(** The end-to-end scenario on FAQs, run: the list after the create
    holds the question, the answer, the creation date and the
    identifier. *)
Example faq_created_then_listed :
  (serve sample_env GET_faqs
     (serve sample_env (POST_faqs faq_body) empty_world).2).1
  = Reply 200
      (Json (envelope_of 200
               (VArr [VObj [("question", VStr "Q"); ("answer", VStr "A");
                            ("createdAt", VDate 1700000000000);
                            ("_id", VOid sample_id)]])
               VUndef)).
Proof. reflexivity. Qed.

(** X7: when its four counting calls go through, the dashboard answers
    200 with the number of documents of each of the four collections,
    and it changes neither the store nor the media host. *)
Theorem dashboard_counts (e : env) (w : world) :
  fault e (CCount "services") = None →
  fault e (CCount "banners") = None →
  fault e (CCount "faqs") = None →
  fault e (CCount "galleries") = None →
  let out := serve e GET_dashboard_stats w in
  out.1 = Reply 200 (Json (envelope_of 200 (stats_result w) VUndef)) ∧
  db out.2 = db w ∧ media out.2 = media w.
Proof.
  intros H1 H2 H3 H4 out. subst out.
  unfold serve, app, get_dashboard_stats. run_handler.
  unfold collection; simpl. rewrite H1; simpl. rewrite H2; simpl.
  rewrite H3; simpl. by rewrite H4.
Qed.

Lemma dashboard_counts_witness :
  let out := serve sample_env GET_dashboard_stats service_world in
  out.1 = Reply 200 (Json (envelope_of 200 (stats_result service_world) VUndef)) ∧
  db out.2 = db service_world ∧ media out.2 = media service_world.
Proof.
  apply (dashboard_counts sample_env service_world); reflexivity.
Defined.

(** ** Uploads that do not go through *)

(** X8: an image-bearing create request without an image part is
    answered 400 "Please upload an image" on each of the three routes,
    and leaves the store, the media host and the trace of calls as they
    were. *)
Theorem missing_image_rejected (e : env) (r : request) (c : string)
    (body : document) (w : world) :
  create_target r = Some (c, true) →
  multipart r = Some (body, None) →
  serve e r w = (Reply 400 (Json (message_obj "Please upload an image")), w).
Proof.
  intros Ht Hm. destruct r; simpl in Ht, Hm; simplify_eq; by run_handler.
Qed.

Lemma missing_image_rejected_witness :
  serve sample_env (POST_galleries [("title", VStr "Shop")] None) service_world
  = (Reply 400 (Json (message_obj "Please upload an image")), service_world).
Proof.
  apply (missing_image_rejected sample_env
           (POST_galleries [("title", VStr "Shop")] None) "galleries"
           [("title", VStr "Shop")] service_world); reflexivity.
Defined.

(** X9: when the media host refuses a file within the size limit, the
    handler does not run and the world is untouched.  [safeUpload]
    answers in JSON on banners: 400 with the error's own message for a
    multer error other than the size limit, 500 "Error uploading file"
    for any other error.  On services and galleries the error goes to
    Express, which answers with an error page under the error's status
    if it has one between 400 and 599 and under 500 otherwise. *)
Theorem refused_upload_reply (e : env) (r : request) (c : string)
    (body : document) (size : N) (err : upload_error) (w : world) :
  create_target r = Some (c, true) →
  multipart r = Some (body, Some size) →
  (size ≤ fileSize_limit)%N →
  uploaded e = Refused err →
  serve e r w
  = (match r, err with
     | POST_banners _ _, MulterError code m =>
         if String.eqb code "LIMIT_FILE_SIZE"
         then Reply 400 (Json (message_obj "File too large. Maximum 5MB allowed."))
         else Reply 400 (Json (message_obj m))
     | POST_banners _ _, OtherError _ _ =>
         Reply 500 (Json (message_obj "Error uploading file"))
     | _, MulterError _ m => Reply 500 (ErrorPage m)
     | _, OtherError (Some s) m =>
         if (400 <=? s) && (s <? 600) then Reply s (ErrorPage m)
         else Reply 500 (ErrorPage m)
     | _, OtherError None m => Reply 500 (ErrorPage m)
     end, w).
Proof.
  intros Ht Hm Hs Hu. apply N.ltb_ge in Hs.
  destruct r; simpl in Ht, Hm; simplify_eq; run_handler.
  all: rewrite Hs, Hu; simpl.
  all: destruct err as [code m|[s|] m]; simpl; try done.
  all: repeat case_match; by simplify_eq.
Qed.

Lemma refused_upload_reply_witness :
  serve (Env 0 sample_id no_fault
           (Refused (OtherError None "Image file format webp not allowed")))
    (POST_banners [("title", VStr "Sale")] (Some 2048%N)) service_world
  = (Reply 500 (Json (message_obj "Error uploading file")), service_world).
Proof.
  apply (refused_upload_reply
           (Env 0 sample_id no_fault
              (Refused (OtherError None "Image file format webp not allowed")))
           (POST_banners [("title", VStr "Sale")] (Some 2048%N)) "banners"
           [("title", VStr "Sale")] 2048%N
           (OtherError None "Image file format webp not allowed")
           service_world); try reflexivity.
  by vm_compute.
Defined.

(** ** Reasoning about handlers step by step *)

Lemma wp_ret {A} (a : A) (Q : result A → world → Prop) (w : world) :
  Q (Ok a) w → wp (ret a) Q w.
Proof. done. Qed.

Lemma wp_throw {A} (err : string) (Q : result A → world → Prop) (w : world) :
  Q (Throw err) w → wp (throw err) Q w.
Proof. done. Qed.

Lemma wp_bind {A B} (m : M A) (k : A → M B) (Q : result B → world → Prop)
    (w : world) :
  wp m (λ r w1, match r with
                | Ok a => wp (k a) Q w1
                | Throw err => Q (Throw err) w1
                end) w →
  wp (bind m k) Q w.
Proof. unfold wp, bind. by destruct (m w) as [[a|err] w1]. Qed.

Lemma wp_try_catch {A} (m : M A) (h : string → M A)
    (Q : result A → world → Prop) (w : world) :
  wp m (λ r w1, match r with
                | Ok a => Q (Ok a) w1
                | Throw err => wp (h err) Q w1
                end) w →
  wp (try_catch m h) Q w.
Proof. unfold wp, try_catch. by destruct (m w) as [[a|err] w1]. Qed.

Lemma wp_external (e : env) (c : call) (Q : result unit → world → Prop)
    (w : world) :
  (fault e c = None → Q (Ok tt) (World (db w) (media w) (calls w ++ [c]))) →
  (∀ m, fault e c = Some m →
        Q (Throw m) (World (db w) (media w) (calls w ++ [c]))) →
  wp (external e c) Q w.
Proof.
  unfold wp, external. destruct (fault e c) as [m|]; simpl; [eauto|eauto].
Qed.

Lemma wp_get_collection (c : string)
    (Q : result (list document) → world → Prop) (w : world) :
  Q (Ok (collection w c)) w → wp (get_collection c) Q w.
Proof. done. Qed.

Lemma wp_set_collection (c : string) (l : list document)
    (Q : result unit → world → Prop) (w : world) :
  Q (Ok tt) (World (<[c := l]> (db w)) (media w) (calls w)) →
  wp (set_collection c l) Q w.
Proof. done. Qed.

Lemma wp_destroy (e : env) (id : string) (Q : result unit → world → Prop)
    (w : world) :
  (fault e (CDestroy id) = None →
   Q (Ok tt) (World (db w) (media w ∖ {[id]}) (calls w ++ [CDestroy id]))) →
  (∀ m, fault e (CDestroy id) = Some m →
        Q (Throw m) (World (db w) (media w) (calls w ++ [CDestroy id]))) →
  wp (destroy e id) Q w.
Proof.
  unfold wp, destroy, bind, external.
  destruct (fault e (CDestroy id)) as [m|]; simpl; [eauto|eauto].
Qed.

Lemma wp_upload_single (e : env) (image : option N)
    (Q : result (upload_error + option file) → world → Prop) (w : world) :
  Q (Ok (inr None)) w →
  (∀ err w', db w' = db w → Q (Ok (inl err)) w') →
  (∀ p f, uploaded e = Stored p f →
          Q (Ok (inr (Some (File p f))))
            (World (db w) ({[f]} ∪ media w) (calls w))) →
  wp (upload_single e image) Q w.
Proof.
  intros Hn He Hs. unfold wp, upload_single.
  destruct image as [size|]; [|done].
  destruct (fileSize_limit <? size)%N; [apply He, abort_upload_db|].
  destruct (uploaded e) as [p f|err] eqn:Hu; [by apply Hs | by apply He].
Qed.

Lemma wp_serve (e : env) (r : request) (Q : reply → world → Prop) (w : world) :
  wp (app e r) (λ res w', Q match res with
                            | Ok rep => rep
                            | Throw m => Rejected m
                            end w') w →
  Q (serve e r w).1 (serve e r w).2.
Proof. unfold wp, serve. by destruct (app e r w) as [[rep|m] w']. Qed.

Ltac wp_step :=
  lazymatch goal with
  | |- wp (bind _ _) _ _ => apply wp_bind
  | |- wp (try_catch _ _) _ _ => apply wp_try_catch
  | |- wp (ret (match ?y with _ => _ end)) _ _ => destruct y eqn:?
  | |- wp (ret _) _ _ => apply wp_ret
  | |- wp (throw _) _ _ => apply wp_throw
  | |- wp (external _ _) _ _ => apply wp_external; [intros ? | intros ? ?]
  | |- wp (upload_single _ _) _ _ =>
      apply wp_upload_single; [| intros ? ? ? | intros ? ? ?]
  | |- wp (destroy _ _) _ _ => apply wp_destroy; [intros ? | intros ? ?]
  | |- wp (get_collection _) _ _ => apply wp_get_collection
  | |- wp (set_collection _ _) _ _ => apply wp_set_collection
  | |- wp (match ?x with _ => _ end) _ _ => destruct x eqn:?
  | |- wp (if ?b then _ else _) _ _ => destruct b eqn:?
  end; cbn beta iota delta [fst snd].

Ltac wp_open :=
  unfold app, get_services, get_banners, get_faqs, get_galleries,
    delete_services_id, delete_banners_id, delete_faqs_id,
    delete_galleries_id, post_services, post_galleries;
  unfold with_upload, safeUpload, create_checked, post_banners, post_faqs,
    catch_create, list_all, delete_by_id, get_services_id,
    get_dashboard_stats, post_login, ObjectId_of_param, insertOne, deleteOne,
    findOne, find_toArray, countDocuments, sendResponse, json, get_prop.

Ltac wp_run := wp_open; repeat wp_step.

(** ** What requests leave alone *)

(** X11: a request that is not answered in the 2xx range has changed no
    collection of the store. *)
Theorem failure_leaves_store (e : env) (r : request) (w : world) :
  succeeded (serve e r w).1 = false →
  db (serve e r w).2 = db w.
Proof.
  apply (wp_serve e r (λ rep w', succeeded rep = false → db w' = db w)).
  destruct r; wp_run.
  all: done.
Qed.

Lemma failure_leaves_store_witness :
  db (serve (banner_env (failing_insert "connection closed"))
        (POST_banners [("title", VStr "Sale")] (Some 2048%N)) service_world).2
  = db service_world.
Proof.
  apply (failure_leaves_store (banner_env (failing_insert "connection closed"))
           (POST_banners [("title", VStr "Sale")] (Some 2048%N)) service_world).
  reflexivity.
Defined.

(** X12: the routes that read (the root, the four lists, the lookup of
    one service, the dashboard and the login) never change the store or
    the media host, whatever the store answers. *)
Theorem reads_change_nothing (e : env) (r : request) (w : world) :
  reads_only r = true →
  db (serve e r w).2 = db w ∧ media (serve e r w).2 = media w.
Proof.
  intros Hr.
  apply (wp_serve e r (λ rep w', db w' = db w ∧ media w' = media w)).
  destruct r; try done; wp_run; done.
Qed.

Lemma reads_change_nothing_witness :
  db (serve sample_env (POST_login "admin@admin.com" "admin") seeded_world).2
  = db seeded_world ∧
  media (serve sample_env (POST_login "admin@admin.com" "admin") seeded_world).2
  = media seeded_world.
Proof.
  apply (reads_change_nothing sample_env (POST_login "admin@admin.com" "admin")
           seeded_world).
  reflexivity.
Defined.

(** X13: no request changes the [users] collection: the API neither
    creates, updates nor deletes users. *)
Theorem users_never_changed (e : env) (r : request) (w : world) :
  collection (serve e r w).2 "users" = collection w "users".
Proof.
  apply (wp_serve e r (λ rep w', collection w' "users" = collection w "users")).
  destruct r; wp_run; try done.
  all: unfold collection; simpl.
  all: try match goal with H : db _ = db _ |- _ => by rewrite H end.
  all: by rewrite lookup_insert_ne.
Qed.



(** ** Deletes *)

Lemma remove_first_sub (f : filter) (l : list document) (d : document) :
  d ∈ (remove_first f l).1 → d ∈ l.
Proof.
  induction l as [|x l IH]; simpl; [done|].
  destruct (matches f x).
  - simpl. apply list_elem_of_further.
  - destruct (remove_first f l) as [r n]; simpl in *.
    intros H. apply elem_of_cons in H as [->|H].
    + apply list_elem_of_here.
    + by apply list_elem_of_further, IH.
Qed.

Lemma remove_first_keeps (f : filter) (l : list document) (d : document) :
  d ∈ l → matches f d = false → d ∈ (remove_first f l).1.
Proof.
  intros Hd Hm. induction l as [|x l IH]; simpl; [done|].
  apply elem_of_cons in Hd as [<-|Hd].
  - rewrite Hm. destruct (remove_first f l); simpl. apply list_elem_of_here.
  - destruct (matches f x); simpl; [done|].
    specialize (IH Hd). destruct (remove_first f l); simpl in *.
    by apply list_elem_of_further.
Qed.

(** X15: a delete request touches its own collection only, and there
    only a document that carries the identifier: every other document
    stays, no document appears, the other collections are as they were,
    and the media host keeps every file, the deleted document's image
    included. *)
Theorem delete_only_matching (e : env) (r : request) (c id : string)
    (w : world) :
  delete_target r = Some (c, id) →
  let out := serve e r w in
  media out.2 = media w ∧
  (∀ c', c ≠ c' → collection out.2 c' = collection w c') ∧
  (∀ d, d ∈ collection out.2 c → d ∈ collection w c) ∧
  (∀ d o, d ∈ collection w c → new_ObjectId id = Some o →
          matches (FId o) d = false → d ∈ collection out.2 c).
Proof.
  intros Ht out. subst out. rewrite (serve_delete e r c id w Ht).
  destruct (new_ObjectId id) as [o|] eqn:Ho.
  - destruct (fault e (CDeleteOne c (FId o))) as [m|] eqn:Hf.
    + pose proof (delete_by_id_rejected e c id o m w Ho Hf) as Hw.
      destruct (delete_by_id e c id w) as [[rep|?] w']; simpl in *; subst w'.
      all: repeat split; try done; intros d o' Hd [= <-] Hm; done.
    + destruct (delete_by_id_done e c id o w Ho Hf) as (l & n & Hr & ->).
      simpl. split; [done|]. split; [|split].
      * intros c' Hne. by apply collection_insert_other.
      * intros d. rewrite collection_insert. intros Hd.
        apply (remove_first_sub (FId o)). by rewrite Hr.
      * intros d o' Hd [= <-] Hm. rewrite collection_insert.
        pose proof (remove_first_keeps (FId o) _ d Hd Hm) as Hk.
        by rewrite Hr in Hk.
  - rewrite (delete_by_id_malformed e c id w Ho). simpl.
    repeat split; try done.
Qed.

Lemma delete_only_matching_witness :
  let out := serve sample_env (DELETE_services_id sample_hex)
               two_services_world in
  media out.2 = media two_services_world ∧
  (∀ c', "services" ≠ c' →
         collection out.2 c' = collection two_services_world c') ∧
  (∀ d, d ∈ collection out.2 "services" →
        d ∈ collection two_services_world "services") ∧
  (∀ d o, d ∈ collection two_services_world "services" →
          new_ObjectId sample_hex = Some o →
          matches (FId o) d = false → d ∈ collection out.2 "services").
Proof.
  apply (delete_only_matching sample_env (DELETE_services_id sample_hex)
           "services" sample_hex two_services_world).
  reflexivity.
Defined.

(** ** Statuses by route *)

(** X16: among the JSON replies, 201 only answers a create, 401 only a
    login, 404 only the lookup of one service, and 500 only that lookup
    or the upload of a banner. *)
Theorem json_status_by_route (e : env) (r : request) (w : world) (s : Z)
    (v : value) :
  (serve e r w).1 = Reply s (Json v) →
  (s = 201 → is_Some (create_target r)) ∧
  (s = 401 → ∃ email password, r = POST_login email password) ∧
  (s = 404 → ∃ id, r = GET_services_id id) ∧
  (s = 500 → (∃ id, r = GET_services_id id)
             ∨ ∃ body image, r = POST_banners body image) ∧
  s ∈ [200; 201; 400; 401; 404; 500].
Proof.
  apply (wp_serve e r
           (λ rep w', rep = Reply s (Json v) →
              (s = 201 → is_Some (create_target r)) ∧
              (s = 401 → ∃ email password, r = POST_login email password) ∧
              (s = 404 → ∃ id, r = GET_services_id id) ∧
              (s = 500 → (∃ id, r = GET_services_id id)
                         ∨ ∃ body image, r = POST_banners body image) ∧
              s ∈ [200; 201; 400; 401; 404; 500])).
  destruct r; wp_run; try done.
  all: intros ?; simplify_eq.
  all: try match goal with
           | H : default_error_handler ?x = Reply _ (Json _) |- _ =>
               exfalso; destruct x as [? ?|[?|] ?]; simpl in H;
               repeat case_match; done
           end.
  all: repeat split; try done; try (intros _; by eauto); set_solver.
Qed.

Lemma json_status_by_route_witness :
  (404 = 201 → is_Some (create_target (GET_services_id sample_hex))) ∧
  (404 = 401 → ∃ email password,
      GET_services_id sample_hex = POST_login email password) ∧
  (404 = 404 → ∃ id, GET_services_id sample_hex = GET_services_id id) ∧
  (404 = 500 → (∃ id, GET_services_id sample_hex = GET_services_id id)
               ∨ ∃ body image,
                   GET_services_id sample_hex = POST_banners body image) ∧
  404 ∈ [200; 201; 400; 401; 404; 500].
Proof.
  apply (json_status_by_route sample_env (GET_services_id sample_hex)
           empty_world 404 (message_obj "Service not found")).
  reflexivity.
Defined.

Lemma oversized_upload_inserts_nothing_witness :
  let out := serve sample_env
               (POST_banners [("title", VStr "Sale")] (Some six_MiB))
               service_world in
  db out.2 = db service_world ∧
  calls out.2 = (calls service_world ++ [CDestroy "anando-computer/a1"])%list ∧
  media out.2
  = ({["anando-computer/a1"]} ∪ media service_world)
      ∖ {["anando-computer/a1"]}.
Proof.
  pose proof (oversized_upload_inserts_nothing sample_env
                (POST_banners [("title", VStr "Sale")] (Some six_MiB))
                [("title", VStr "Sale")] six_MiB service_world
                eq_refl eq_refl) as [Hdb Hstored].
  pose proof (Hstored _ _ eq_refl) as (Hc & Hm & _).
  split; [exact Hdb|]. split; [exact Hc|]. apply Hm. reflexivity.
Defined.

(** ** Login and the seed *)

(** X17: for a submitted email that a user document carries, the login
    answers 401 "Invalid password" unless the submitted password is the
    stored one, and otherwise 200 with the user document as stored and a
    token signed with the fixed secret for 100 days over that document's
    email. *)
Theorem login_known_email (e : env) (email password : string) (w : world)
    (u : document) :
  fault e (CFindOne "users" (FEmail email)) = None →
  List.find (matches (FEmail email)) (collection w "users") = Some u →
  (serve e (POST_login email password) w).1
  = if strict_eq (obj_get "password" u) (VStr password)
    then Reply 200 (Json (envelope_of 200
                            (VObj [("user", VObj u); ("token", login_token u)])
                            VUndef))
    else Reply 401 (Json (envelope_of 401 (message_obj "Invalid password")
                            (VStr "Invalid password"))).
Proof.
  intros Hf Hu.
  destruct (strict_eq (obj_get "password" u) (VStr password)) eqn:Hp.
  - by apply (login_accepted e email password w u).
  - by apply (login_wrong_password e email password w u).
Qed.

Lemma login_known_email_witness :
  (serve sample_env (POST_login "admin@admin.com" "admin") seeded_world).1
  = if strict_eq (obj_get "password" admin_doc) (VStr "admin")
    then Reply 200 (Json (envelope_of 200
                            (VObj [("user", VObj admin_doc);
                                   ("token", login_token admin_doc)])
                            VUndef))
    else Reply 401 (Json (envelope_of 401 (message_obj "Invalid password")
                            (VStr "Invalid password"))).
Proof.
  apply (login_known_email sample_env "admin@admin.com" "admin" seeded_world
           admin_doc); reflexivity.
Defined.

(** X18: once the connection is established on a store without admin
    document and the seed's calls go through, the seeded credentials log
    in: the answer is 200 with the seeded document and a token over the
    admin email. *)
Theorem seeded_admin_logs_in (e e' : env) (w : world) :
  fault e (CFindOne "users" (FEmail admin_email)) = None →
  fault e (CInsertOne "users" seed_doc) = None →
  admins w = [] →
  fault e' (CFindOne "users" (FEmail admin_email)) = None →
  let u := stored_doc e seed_doc in
  (serve e' (POST_login admin_email "admin")
     (Startup.connectToMongo e None w).2).1
  = Reply 200 (Json (envelope_of 200
                       (VObj [("user", VObj u); ("token", login_token u)])
                       VUndef)) ∧
  obj_get "email" u = VStr admin_email.
Proof.
  intros Hf Hi Hno Hf' u. subst u. split; [|reflexivity].
  assert (List.find (matches (FEmail admin_email)) (collection w "users")
          = None) as Hd.
  { destruct (List.find _ _) as [d|] eqn:Hd; [|done].
    apply find_some in Hd as [Hin Hm].
    assert (In d (admins w)) as Hin' by (apply filter_In; by split).
    rewrite Hno in Hin'. by destruct Hin'. }
  apply login_accepted; [done| |reflexivity].
  simpl. rewrite (seedAdmin_absent e w Hf Hi Hd).
  by rewrite (find_app_None _ _ _ Hd).
Qed.

Lemma seeded_admin_logs_in_witness :
  let u := stored_doc sample_env seed_doc in
  (serve sample_env (POST_login admin_email "admin")
     (Startup.connectToMongo sample_env None service_world).2).1
  = Reply 200 (Json (envelope_of 200
                       (VObj [("user", VObj u); ("token", login_token u)])
                       VUndef)) ∧
  obj_get "email" u = VStr admin_email.
Proof.
  apply (seeded_admin_logs_in sample_env sample_env service_world);
    reflexivity.
Defined.

Lemma seedAdmin_at_most_one_witness :
  (length (admins (seedAdmin (banner_env (failing_insert "connection closed"))
                     seeded_world).2) ≤ 1)%nat.
Proof.
  apply (seedAdmin_at_most_one (banner_env (failing_insert "connection closed"))
           seeded_world).
  vm_compute. lia.
Defined.

(** ** Binding the port *)

Lemma startServer_illegal (listen : Z → Startup.listen_result) (port : Z) :
  ¬ (0 ≤ port < 65536) → Startup.startServer listen port = Startup.Exited 1.
Proof.
  intros H. unfold Startup.startServer.
  by destruct (decide (0 ≤ port < 65536)).
Qed.

(** On a legal port [startServer] is the function of the source: it
    listens, starts over on the next port, or ends the process. *)
Lemma startServer_legal (listen : Z → Startup.listen_result) (port : Z) :
  0 ≤ port < 65536 →
  Startup.startServer listen port
  = match listen port with
    | Startup.listening => Startup.Listening port
    | Startup.error code =>
        if String.eqb code "EADDRINUSE"
        then Startup.startServer listen (port + 1)
        else Startup.Exited 1
    end.
Proof.
  intros H. unfold Startup.startServer.
  rewrite decide_True by done.
  replace (Z.to_nat (65536 - port))
    with (S (Z.to_nat (65536 - (port + 1)))) by lia.
  simpl. destruct (listen port) as [|code]; [done|].
  destruct (String.eqb code "EADDRINUSE"); [|done].
  destruct (decide (0 ≤ port + 1 < 65536)) as [Hn|Hn]; [done|].
  by replace (Z.to_nat (65536 - (port + 1))) with O by lia.
Qed.

(** X20: [startServer] ends with the server listening on a port exactly
    when that port is the first one, from the requested port upwards and
    within 0..65535, on which [listen] succeeds, every port before it
    having been found in use; in every other case the process ends with
    code 1. *)
Theorem startServer_first_free_port (listen : Z → Startup.listen_result)
    (port : Z) :
  (∀ q, Startup.startServer listen port = Startup.Listening q ↔
        0 ≤ port ≤ q ∧ q < 65536 ∧ listen q = Startup.listening ∧
        ∀ p, port ≤ p < q → listen p = Startup.error "EADDRINUSE") ∧
  (∀ code, Startup.startServer listen port = Startup.Exited code → code = 1).
Proof.
  remember (Z.to_nat (65536 - port)) as n eqn:Hn.
  revert port Hn. induction n as [n IH] using lt_wf_ind. intros port Hn.
  destruct (decide (0 ≤ port < 65536)) as [Hr|Hr].
  - rewrite (startServer_legal listen port Hr).
    destruct (listen port) as [|code] eqn:Hl.
    + split; [|done]. intros q. split.
      * intros [= <-]. split; [lia|]. split; [lia|]. split; [done|].
        intros p Hp. lia.
      * intros (Hq & _ & Hlq & Hbusy).
        destruct (decide (q = port)) as [->|Hne]; [done|].
        rewrite (Hbusy port) in Hl by lia. done.
    + destruct (String.eqb code "EADDRINUSE") eqn:Hc.
      * apply String.eqb_eq in Hc as ->.
        destruct (IH (Z.to_nat (65536 - (port + 1))) ltac:(lia) (port + 1)
                    eq_refl) as [IH1 IH2].
        split; [|exact IH2]. intros q. rewrite IH1. split.
        -- intros (Hq & Hq' & Hlq & Hbusy).
           split; [lia|]. split; [lia|]. split; [done|].
           intros p Hp. destruct (decide (p = port)) as [->|Hne]; [done|].
           apply Hbusy. lia.
        -- intros (Hq & Hq' & Hlq & Hbusy).
           assert (q ≠ port) by (intros ->; rewrite Hlq in Hl; done).
           split; [lia|]. split; [lia|]. split; [done|].
           intros p Hp. apply Hbusy. lia.
      * split; [|by intros code' [= <-]]. intros q. split; [done|].
        intros (Hq & _ & Hlq & Hbusy).
        destruct (decide (q = port)) as [->|Hne];
          [rewrite Hlq in Hl; done|].
        rewrite (Hbusy port) in Hl by lia. by simplify_eq.
  - rewrite (startServer_illegal listen port Hr).
    split; [|by intros code [= <-]]. intros q. split; [done|]. lia.
Qed.

(** The server of a machine whose ports 3000 and 3001 are taken. *)
Example startServer_skips_busy_ports :
  Startup.startServer (busy_below 3002) (Startup.PORT None)
  = Startup.Listening 3002.
Proof. reflexivity. Qed.
